(** * PSL to MTD reconciliation: the normalisation and box-assignment engine

    A shallow embedding of [app.py]: column resolution ([_find_col]), value
    coercion ([_to_float]), VAT-code normalisation ([normalise_vat_code]),
    source-type detection ([detect_source_type]), record extraction
    ([parse_excel]) and box aggregation ([assign_boxes]).

    Conventions of the embedding.
    - A Python [str] is a [string] whose characters are the code points
      U+0000..U+00FF (Latin-1); the character tables below are Python's
      on that range.
    - A Python [float] is a primitive binary64 [float]; [+] is [PrimFloat.add]
      and [==] is [PrimFloat.eqb].
    - A [dict] whose iteration order matters is an association list in
      insertion order.
    - An exception is [None] in an [option]; [try/except] is a [match]. *)

From Stdlib Require Import Bool List ZArith Lia Ascii String Permutation.
From Stdlib Require Import DecimalString.
From Stdlib Require Import Floats.
Import ListNotations.

Open Scope list_scope.
Open Scope string_scope.

Set Warnings "-inexact-float".

(** ** Python string primitives *)

Module PyStr.

Definition code (c : ascii) : N := N_of_ascii c.

Definition in_range (lo hi : N) (c : ascii) : bool :=
  (N.leb lo (code c) && N.leb (code c) hi)%bool.

(** [str.isspace] on one character. *)
Definition isspace (c : ascii) : bool :=
  in_range 9 13 c || in_range 28 32 c || N.eqb (code c) 133 || N.eqb (code c) 160.

(** [str.lower] on one character. *)
Definition lower_char (c : ascii) : ascii :=
  if in_range 65 90 c || (in_range 192 222 c && negb (N.eqb (code c) 215))
  then ascii_of_N (code c + 32)
  else c.

(** [s.lower()] *)
Fixpoint lower (s : string) : string :=
  match s with
  | EmptyString => EmptyString
  | String c s' => String (lower_char c) (lower s')
  end.

(** [s.lstrip()] *)
Fixpoint lstrip (s : string) : string :=
  match s with
  | EmptyString => EmptyString
  | String c s' => if isspace c then lstrip s' else s
  end.

(** [s.rstrip()]: a character is kept when it is not a space or when
    something is kept after it. *)
Fixpoint rstrip (s : string) : string :=
  match s with
  | EmptyString => EmptyString
  | String c s' =>
      match rstrip s' with
      | EmptyString => if isspace c then EmptyString else String c EmptyString
      | r => String c r
      end
  end.

(** [s.strip()] *)
Definition strip (s : string) : string := rstrip (lstrip s).

(** [s.startswith(p)] *)
Fixpoint startswith (p s : string) : bool :=
  match p, s with
  | EmptyString, _ => true
  | String _ _, EmptyString => false
  | String a p', String b s' => Ascii.eqb a b && startswith p' s'
  end.

(** [needle in hay] *)
Fixpoint contains (needle hay : string) : bool :=
  startswith needle hay ||
  match hay with
  | EmptyString => false
  | String _ hay' => contains needle hay'
  end.

(** [s.replace(",", "")] *)
Fixpoint remove_commas (s : string) : string :=
  match s with
  | EmptyString => EmptyString
  | String c s' =>
      if Ascii.eqb c "," then remove_commas s' else String c (remove_commas s')
  end.

(** [s[:n]] *)
Fixpoint take (n : nat) (s : string) : string :=
  match n, s with
  | O, _ => EmptyString
  | S _, EmptyString => EmptyString
  | S n', String c s' => String c (take n' s')
  end.

(** [s[n:]] *)
Fixpoint drop (n : nat) (s : string) : string :=
  match n, s with
  | O, _ => s
  | S _, EmptyString => EmptyString
  | S n', String _ s' => drop n' s'
  end.

(** [re.sub(r"\s+", " ", s)]: every maximal run of spaces becomes one
    blank. [in_run] tells that the previous character was a space. *)
Fixpoint collapse_ws_from (in_run : bool) (s : string) : string :=
  match s with
  | EmptyString => EmptyString
  | String c s' =>
      if isspace c
      then if in_run then collapse_ws_from true s'
           else String " " (collapse_ws_from true s')
      else String c (collapse_ws_from false s')
  end.

Definition collapse_ws (s : string) : string := collapse_ws_from false s.

End PyStr.

(** ** An insertion-ordered dictionary with string keys *)

Module Dict.

Section Ops.
Context {V : Type}.

Definition t := list (string * V).

(** [d.get(k)] *)
Fixpoint get (k : string) (d : t) : option V :=
  match d with
  | [] => None
  | (k', v) :: d' => if String.eqb k' k then Some v else get k d'
  end.

(** [k in d] *)
Definition mem (k : string) (d : t) : bool :=
  match get k d with Some _ => true | None => false end.

(** [d[k] = v]: an existing key keeps its place, a new one goes last. *)
Fixpoint set (k : string) (v : V) (d : t) : t :=
  match d with
  | [] => [(k, v)]
  | (k', v') :: d' =>
      if String.eqb k' k then (k', v) :: d' else (k', v') :: set k v d'
  end.

Definition keys (d : t) : list string := map fst d.
End Ops.

Arguments t : clear implicits.

End Dict.

(** ** Python floats: [float(str)], [float(int)] and the cell values of a sheet *)

Module PyFloat.

Import PyStr.
Local Open Scope Z_scope.

Definition is_digit (c : ascii) : bool := in_range 48 57 c.

Definition digit_val (c : ascii) : Z := Z.of_N (code c) - 48.

(** The digits at the head of [s], and what follows them. *)
Fixpoint span_digits (s : string) : string * string :=
  match s with
  | EmptyString => (EmptyString, EmptyString)
  | String c s' =>
      if is_digit c
      then let '(ds, r) := span_digits s' in (String c ds, r)
      else (EmptyString, s)
  end.

Fixpoint Z_of_digits (acc : Z) (ds : string) : Z :=
  match ds with
  | EmptyString => acc
  | String c ds' => Z_of_digits (10 * acc + digit_val c) ds'
  end.

(** Underscores are dropped when each one stands between two digits; any
    other underscore is a [ValueError]. [prev] is the character before [s]. *)
Fixpoint drop_underscores (prev : option ascii) (s : string) : option string :=
  let prev_digit := match prev with Some p => is_digit p | None => false end in
  let prev_under := match prev with Some p => Ascii.eqb p "_" | None => false end in
  match s with
  | EmptyString => if prev_under then None else Some EmptyString
  | String c s' =>
      if Ascii.eqb c "_"
      then if prev_digit then drop_underscores (Some c) s' else None
      else if prev_under && negb (is_digit c) then None
           else option_map (String c) (drop_underscores (Some c) s')
  end.

(** An optional sign: [true] for [-]. *)
Definition read_sign (s : string) : bool * string :=
  match s with
  | String c s' =>
      if Ascii.eqb c "-" then (true, s')
      else if Ascii.eqb c "+" then (false, s')
      else (false, s)
  | EmptyString => (false, s)
  end.

(** [digits [. digits] [(e|E) [sign] digits]] with a digit before or after
    the point: the decimal mantissa and the power of ten. *)
Definition read_decimal (s : string) : option (Z * Z) :=
  let '(ip, r1) := span_digits s in
  let '(fp, r2) :=
    match r1 with
    | String c r => if Ascii.eqb c "." then span_digits r else (EmptyString, r1)
    | EmptyString => (EmptyString, r1)
    end in
  match (String.length ip + String.length fp)%nat with
  | O => None
  | S _ =>
      let m := Z_of_digits 0 (ip ++ fp) in
      let scale := Z.of_nat (String.length fp) in
      match r2 with
      | EmptyString => Some (m, - scale)
      | String c r3 =>
          if Ascii.eqb c "e" || Ascii.eqb c "E"
          then let '(eneg, r4) := read_sign r3 in
               let '(ed, r5) := span_digits r4 in
               match ed, r5 with
               | String _ _, EmptyString =>
                   let e := Z_of_digits 0 ed in
                   Some (m, (if eneg then - e else e) - scale)
               | _, _ => None
               end
          else None
      end
  end.

(** The binary64 number nearest to [m * 10^e] (ties to even), for [m >= 0];
    too large a value is an infinity. *)
Definition round_decimal (neg : bool) (m e : Z) : float :=
  match m with
  | Zpos p =>
      SF2Prim
        (if 0 <=? e
         then binary_normalize prec emax
                (if neg then - (m * 10 ^ e) else m * 10 ^ e) 0 false
         else SFdiv prec emax (S754_finite neg p 0)
                (S754_finite false (Z.to_pos (10 ^ (- e))) 0))
  | _ => if neg then neg_zero else zero
  end.

(** [float(s)] for a string; [None] is [ValueError]. *)
Definition of_string (s : string) : option float :=
  match drop_underscores None (strip s) with
  | None => None
  | Some t =>
      let '(neg, body) := read_sign t in
      let word := lower body in
      if String.eqb word "inf" || String.eqb word "infinity"
      then Some (if neg then neg_infinity else infinity)
      else if String.eqb word "nan" then Some nan
      else match read_decimal body with
           | Some (m, e) => Some (round_decimal neg m e)
           | None => None
           end
  end.

(** [float(n)] for an integer; [None] is [OverflowError]. *)
Definition of_int (z : Z) : option float :=
  match binary_normalize prec emax z 0 false with
  | S754_infinity _ => None
  | sf => Some (SF2Prim sf)
  end.

End PyFloat.

(** A cell of a sheet as pandas hands it over. A float cell carries
    Python's rendering of it ([str(x)], the shortest representation that
    reads back), which is a builtin outside this program. *)
Inductive cell : Type :=
| CNone                                 (* None; also what [r.get] gives for an absent key *)
| CNaT                                  (* a missing date *)
| CFloat (f : float) (shown : string)   (* a float, NaN included *)
| CInt (z : Z)
| CBool (b : bool)
| CStr (s : string)
| CDate (shown : string).               (* a timestamp or a time of day *)

Module Cell.

(** [pd.isna(x)] *)
Definition isna (x : cell) : bool :=
  match x with
  | CNone | CNaT => true
  | CFloat f _ => is_nan f
  | _ => false
  end.

(** [bool(x)] *)
Definition truthy (x : cell) : bool :=
  match x with
  | CNone => false
  | CNaT => true
  | CFloat f _ => negb (PrimFloat.eqb f zero)
  | CInt z => negb (Z.eqb z 0)
  | CBool b => b
  | CStr s => negb (String.eqb s "")
  | CDate _ => true
  end.

(** [str(x)] *)
Definition str (x : cell) : string :=
  match x with
  | CNone => "None"
  | CNaT => "NaT"
  | CFloat _ shown => shown
  | CInt z => DecimalString.NilZero.string_of_int (Z.to_int z)
  | CBool b => if b then "True" else "False"
  | CStr s => s
  | CDate shown => shown
  end.

(** [float(x)]; [None] when it raises. *)
Definition float_of (x : cell) : option float :=
  match x with
  | CNone | CNaT | CDate _ => None
  | CFloat f _ => Some f
  | CInt z => PyFloat.of_int z
  | CBool b => Some (if b then one else zero)
  | CStr s => PyFloat.of_string s
  end.

End Cell.

(** ** Value coercion *)

(** The body of the [try] of [_to_float]; [None] when it raises. *)
Definition _to_float_try (x : cell) : option float :=
  if Cell.isna x then Some zero
  else
    let x :=
      match x with
      | CStr s => CStr (PyStr.strip (PyStr.remove_commas s))
      | _ => x
      end in
    Cell.float_of x.

Definition _to_float (x : cell) : float :=
  match _to_float_try x with
  | Some f => f
  | None => zero
  end.

(** ** A backtracking matcher for the regular expressions the program uses *)

Module Re.

Import PyStr.

(** The constructs of [VAT_CODE_REGEX]; the flag [(?i)] is built into [Lit]. *)
Inductive regex : Type :=
| Lit (p : string)        (* literal characters, letter case ignored *)
| Spaces                  (* \s*, greedy *)
| OptDash                 (* -?, greedy *)
| WordB                   (* \b *)
| Seq (a b : regex)
| Alt (a b : regex).

(** A position in the subject: the character before it and what is left. *)
Record pos : Type := { prev : option ascii; rest : string }.

(** [\w] on one character. *)
Definition is_word (c : ascii) : bool :=
  in_range 48 57 c || in_range 65 90 c || N.eqb (code c) 95 || in_range 97 122 c
  || N.eqb (code c) 170 || in_range 178 179 c || N.eqb (code c) 181
  || in_range 185 186 c || in_range 188 190 c
  || in_range 192 214 c || in_range 216 246 c || in_range 248 255 c.

Definition word_before (st : pos) : bool :=
  match prev st with Some c => is_word c | None => false end.

Definition word_after (st : pos) : bool :=
  match rest st with String c _ => is_word c | EmptyString => false end.

Fixpoint lit (p : string) (before : option ascii) (s : string) : option pos :=
  match p with
  | EmptyString => Some {| prev := before; rest := s |}
  | String a p' =>
      match s with
      | String b s' =>
          if Ascii.eqb (lower_char a) (lower_char b) then lit p' (Some b) s' else None
      | EmptyString => None
      end
  end.

(** The positions after [\s*], the longest run first. *)
Fixpoint spaces (before : option ascii) (s : string) : list pos :=
  match s with
  | String c s' =>
      if isspace c
      then spaces (Some c) s' ++ [{| prev := before; rest := s |}]
      else [{| prev := before; rest := s |}]
  | EmptyString => [{| prev := before; rest := s |}]
  end.

(** The positions at which a match of [r] started at [st] can end, in the
    order in which the backtracking matcher tries them. *)
Fixpoint run (r : regex) (st : pos) : list pos :=
  match r with
  | Lit p => match lit p (prev st) (rest st) with Some st' => [st'] | None => [] end
  | Spaces => spaces (prev st) (rest st)
  | OptDash =>
      match rest st with
      | String c s' => if Ascii.eqb c "-" then [{| prev := Some c; rest := s' |}; st] else [st]
      | EmptyString => [st]
      end
  | WordB => if xorb (word_before st) (word_after st) then [st] else []
  | Seq a b => flat_map (run b) (run a st)
  | Alt a b => run a st ++ run b st
  end.

(** [m.group(0)] for [m = r.search(s)], scanning start positions from the
    left; [before] is the character in front of [s]. *)
Fixpoint search_from (r : regex) (before : option ascii) (s : string) : option string :=
  match run r {| prev := before; rest := s |} with
  | st' :: _ => Some (take (String.length s - String.length (rest st')) s)
  | [] =>
      match s with
      | String c s' => search_from r (Some c) s'
      | EmptyString => None
      end
  end.

Definition search (r : regex) (s : string) : option string := search_from r None s.

(** [re.split(r"[^a-z0-9%]+", s)] *)
Definition is_token_char (c : ascii) : bool :=
  in_range 97 122 c || in_range 48 57 c || N.eqb (code c) 37.

(** The piece before the first separator run of [s], and the later pieces. *)
Fixpoint split_pieces (s : string) : string * list string :=
  match s with
  | EmptyString => (EmptyString, [])
  | String c s' =>
      let '(piece, more) := split_pieces s' in
      if is_token_char c then (String c piece, more)
      else match s' with
           | String c' _ =>
               if is_token_char c' then (EmptyString, piece :: more)
               else (EmptyString, more)
           | EmptyString => (EmptyString, piece :: more)
           end
  end.

Definition split_tokens (s : string) : list string :=
  let '(piece, more) := split_pieces s in piece :: more.

End Re.

(** ** VAT code normalisation *)

Definition NORMALISE_MAP : Dict.t string :=
  [ ("t20", "T20"); ("t1", "T20"); ("std", "T20"); ("standard", "T20");
    ("20", "T20"); ("20%", "T20");
    ("t0", "T0"); ("z", "T0"); ("zero", "T0"); ("0", "T0"); ("0%", "T0");
    ("e", "EXEMPT"); ("exempt", "EXEMPT");
    ("vx", "OOS"); ("oos", "OOS"); ("outofscope", "OOS"); ("out of scope", "OOS");
    ("t5", "REDUCED"); ("5", "REDUCED"); ("5%", "REDUCED"); ("reduced", "REDUCED");
    ("ni", "NI"); ("northern ireland", "NI");
    ("eu", "EU"); ("ec", "EU"); ("eec", "EU") ].

Declare Scope re_scope.
Delimit Scope re_scope with re.
Infix "<.>" := Re.Seq (at level 45, right associativity) : re_scope.
Infix "</>" := Re.Alt (at level 55, right associativity) : re_scope.

(** [t\s*-?\s*n] *)
Definition t_code (n : string) : Re.regex :=
  (Re.Lit "t" <.> Re.Spaces <.> Re.OptDash <.> Re.Spaces <.> Re.Lit n)%re.

(** The pattern is compiled without the verbose flag, so the blank in front
    of each top-level bar is a character of the pattern: the first five
    families end in a blank, the last one does not. *)
Definition VAT_CODE_REGEX : Re.regex :=
  (   (t_code "20" </> t_code "1" </> Re.Lit "std" </> Re.Lit "standard"
         </> Re.Lit "20%" </> Re.Lit "20") <.> Re.Lit " "
  </> (t_code "0" </> Re.Lit "zero" </> Re.Lit "0%") <.> Re.Lit " "
  </> (Re.Lit "exempt" </> Re.Lit "e") <.> Re.Lit " "
  </> (Re.Lit "vx"
         </> Re.Lit "out" <.> Re.Spaces <.> Re.Lit "of" <.> Re.Spaces <.> Re.Lit "scope"
         </> Re.Lit "oos") <.> Re.Lit " "
  </> (t_code "5" </> Re.Lit "5%" </> Re.Lit "reduced") <.> Re.Lit " "
  </> (Re.Lit "ni"
         </> Re.Lit "northern" <.> Re.Spaces <.> Re.Lit "ireland"
         </> Re.WordB <.> Re.Lit "EU" <.> Re.WordB
         </> Re.WordB <.> Re.Lit "EC" <.> Re.WordB) )%re.

(** [for k, v in NORMALISE_MAP.items(): if k in text: return v] *)
Fixpoint scan_table (table : Dict.t string) (text : string) : option string :=
  match table with
  | [] => None
  | (k, v) :: table' =>
      if PyStr.contains k text then Some v else scan_table table' text
  end.

(** [for t in tokens: if t in NORMALISE_MAP: return NORMALISE_MAP[t]] *)
Fixpoint lookup_tokens (tokens : list string) : option string :=
  match tokens with
  | [] => None
  | t :: tokens' =>
      match Dict.get t NORMALISE_MAP with
      | Some v => Some v
      | None => lookup_tokens tokens'
      end
  end.

(** [s = str(val or "").strip().lower()] *)
Definition code_token (val : cell) : string :=
  PyStr.lower (PyStr.strip (if Cell.truthy val then Cell.str val else "")).

(** The regex buckets: the tag found, when the first stage returns. *)
Definition regex_stage (s : string) : option string :=
  if String.eqb s "" then None
  else match Re.search VAT_CODE_REGEX s with
       | Some m => scan_table NORMALISE_MAP (PyStr.lower m)
       | None => None
       end.

(** The direct tokens: the tag found, when the second stage returns. *)
Definition token_stage (s : string) : option string :=
  lookup_tokens (if String.eqb s "" then [] else Re.split_tokens s).

(** The description scan, which ends the function. *)
Definition description_stage (description : string) : string :=
  match scan_table NORMALISE_MAP (PyStr.lower description) with
  | Some v => v
  | None => "UNKNOWN"
  end.

Definition normalise_vat_code (val : cell) (description : string) : string :=
  let s := code_token val in
  match regex_stage s with
  | Some v => v
  | None =>
      match token_stage s with
      | Some v => v
      | None => description_stage description
      end
  end.

(** ** Column resolution *)

Definition COL_CANDIDATES : Dict.t (list string) :=
  [ ("date", ["date"; "txn date"; "doc date"; "invoice date"; "posting date"]);
    ("ref", ["invoice"; "inv"; "document"; "doc no"; "reference"; "ref"]);
    ("supplier", ["supplier"; "vendor"; "customer"; "name"; "account name"]);
    ("description", ["description"; "narrative"; "memo"; "details"]);
    ("net", ["net"; "amount (excl)"; "amount excl vat"; "goods"; "taxable amount";
             "base"; "amount"]);
    ("vat", ["vat"; "tax"; "vat amount"; "tax amount"; "vat amt"]);
    ("gross", ["gross"; "amount (incl)"; "total"; "amount incl vat"]);
    ("vat_code", ["vat code"; "tax code"; "code"; "t-code"; "vat type"; "rate";
                  "vat rate"]);
    ("currency", ["currency"; "curr"; "ccy"]) ].

(** [COL_CANDIDATES[field]] for a field of the table. *)
Definition candidates (field : string) : list string :=
  match Dict.get field COL_CANDIDATES with
  | Some keys => keys
  | None => []
  end.

(** [re.sub(r"\s+", " ", str(c)).strip().lower()] *)
Definition norm_header (c : string) : string :=
  PyStr.lower (PyStr.strip (PyStr.collapse_ws c)).

(** [{c: norm_header(c) for c in columns}] *)
Definition header_table (columns : list string) : Dict.t string :=
  fold_left (fun d c => Dict.set c (norm_header c) d) columns [].

(** [for c, lc in cols.items(): if want_l == lc: return c] *)
Fixpoint first_equal (want_l : string) (cols : Dict.t string) : option string :=
  match cols with
  | [] => None
  | (c, lc) :: cols' =>
      if String.eqb want_l lc then Some c else first_equal want_l cols'
  end.

(** The first pair of loops of [_find_col]. *)
Fixpoint exact_pass (keys : list string) (cols : Dict.t string) : option string :=
  match keys with
  | [] => None
  | want :: keys' =>
      match first_equal (PyStr.lower want) cols with
      | Some c => Some c
      | None => exact_pass keys' cols
      end
  end.

(** [for c in columns: if w in str(c).lower(): return c] *)
Fixpoint first_containing (w : string) (columns : list string) : option string :=
  match columns with
  | [] => None
  | c :: columns' =>
      if PyStr.contains w (PyStr.lower c) then Some c else first_containing w columns'
  end.

(** The second pair of loops of [_find_col]. *)
Fixpoint fuzzy_pass (keys : list string) (columns : list string) : option string :=
  match keys with
  | [] => None
  | want :: keys' =>
      match first_containing (PyStr.lower want) columns with
      | Some c => Some c
      | None => fuzzy_pass keys' columns
      end
  end.

Definition _find_col (columns : list string) (keys : list string) : option string :=
  match exact_pass keys (header_table columns) with
  | Some c => Some c
  | None => fuzzy_pass keys columns
  end.

(** ** Source type *)

(** [any(w in probe for w in words)] *)
Definition any_in (words : list string) (probe : string) : bool :=
  existsb (fun w => PyStr.contains w probe) words.

Definition detect_source_type (sheet_name filename : string) : string :=
  let probe := PyStr.lower (sheet_name ++ " " ++ filename) in
  if any_in ["sale"; "ar"; "output"] probe then "sales"
  else if any_in ["purchase"; "ap"; "input"; "payable"] probe then "purchases"
  else "unknown".

(** ** Record extraction *)

Record Line : Type := {
  show : string;
  sheet : string;
  date : option string;
  ref : option string;
  supplier : option string;
  description : option string;
  net : float;
  vat : float;
  gross : float;
  vat_code : option string;
  source_type : string;
  raw : list (string * cell)
}.

(** A sheet as [pd.read_excel] returns it: the headers, which are text and
    which pandas keeps distinct by renaming a repeated one, and the rows,
    each row with one cell per header. *)
Record DataFrame : Type := {
  columns : list string;
  rows : list (list cell)
}.

(** An uploaded workbook: its file name and its sheets by name, a sheet
    being [None] when reading it raises. *)
Record FileStorage : Type := {
  filename : string;
  sheets : list (string * option DataFrame)
}.

(** [r.items()] for the row [r] of a frame with these columns. *)
Definition row_items (cols : list string) (r : list cell) : list (string * cell) :=
  combine cols r.

(** [r.get(c)]: the cell under the header [c], [None] when [c] is no
    header of the row (in particular when [c] is [None]). *)
Definition row_get (cols : list string) (r : list cell) (c : option string) : cell :=
  match c with
  | Some name =>
      match Dict.get name (row_items cols r) with
      | Some x => x
      | None => CNone
      end
  | None => CNone
  end.

(** [x or None] for a resolved header. *)
Definition or_none (c : option string) : option string :=
  match c with
  | Some name => if String.eqb name "" then None else c
  | None => None
  end.

Definition is_some {A : Type} (o : option A) : bool :=
  match o with Some _ => true | None => false end.

(** [os.path.splitext(p)[0]] with [/] as the separator: the extension
    starts at the last dot of the last component, leading dots aside. *)
Module Path.

(** [p.rfind(c)] counted from [i], the index of the head of [s]. *)
Fixpoint rfind_from (c : ascii) (i : Z) (s : string) : Z :=
  match s with
  | EmptyString => (-1)%Z
  | String a s' =>
      let later := rfind_from c (i + 1)%Z s' in
      if (0 <=? later)%Z then later
      else if Ascii.eqb a c then i else (-1)%Z
  end.

Definition rfind (c : ascii) (s : string) : Z := rfind_from c 0%Z s.

Fixpoint all_dots (s : string) : bool :=
  match s with
  | EmptyString => true
  | String a s' => Ascii.eqb a "." && all_dots s'
  end.

Definition splitext_root (p : string) : string :=
  let sepIndex := rfind "/" p in
  let dotIndex := rfind "." p in
  if (sepIndex <? dotIndex)%Z
  then
    let name_start := Z.to_nat (sepIndex + 1) in
    let stem := PyStr.take (Z.to_nat dotIndex - name_start) (PyStr.drop name_start p) in
    if all_dots stem then p else PyStr.take (Z.to_nat dotIndex) p
  else p.

End Path.

(** The resolved headers of one sheet. *)
Record Resolved : Type := {
  c_date : option string;
  c_ref : option string;
  c_supplier : option string;
  c_desc : option string;
  c_net : option string;
  c_vat : option string;
  c_gross : option string;
  c_code : option string
}.

Definition resolve (cols : list string) : Resolved :=
  {| c_date := or_none (_find_col cols (candidates "date"));
     c_ref := or_none (_find_col cols (candidates "ref"));
     c_supplier := or_none (_find_col cols (candidates "supplier"));
     c_desc := or_none (_find_col cols (candidates "description"));
     c_net := or_none (_find_col cols (candidates "net"));
     c_vat := or_none (_find_col cols (candidates "vat"));
     c_gross := or_none (_find_col cols (candidates "gross"));
     c_code := or_none (_find_col cols (candidates "vat_code")) |}.

(** The three coerced amounts of a row. *)
Definition row_net (cols : list string) (rc : Resolved) (r : list cell) : float :=
  if is_some (c_net rc) then _to_float (row_get cols r (c_net rc)) else zero.

Definition row_vat (cols : list string) (rc : Resolved) (r : list cell) : float :=
  if is_some (c_vat rc) then _to_float (row_get cols r (c_vat rc)) else zero.

Definition row_gross (cols : list string) (rc : Resolved) (r : list cell) : float :=
  if is_some (c_gross rc) then _to_float (row_get cols r (c_gross rc))
  else (row_net cols rc r + row_vat cols rc r)%float.

(** [str(r.get(c)) if c else None] *)
Definition shown_if (cols : list string) (r : list cell) (c : option string) : option string :=
  if is_some c then Some (Cell.str (row_get cols r c)) else None.

(** The body of the loop over the rows: the line of a row, if it has one. *)
Definition parse_row (show_name sheet_name src_type : string)
    (cols : list string) (rc : Resolved) (r : list cell) : option Line :=
  let net := row_net cols rc r in
  let vat := row_vat cols rc r in
  let gross := row_gross cols rc r in
  if PrimFloat.eqb net zero && PrimFloat.eqb vat zero && PrimFloat.eqb gross zero
  then None
  else
    let desc := Cell.str (row_get cols r (c_desc rc)) in
    let vcode :=
      if is_some (c_code rc)
      then normalise_vat_code (row_get cols r (c_code rc)) desc
      else normalise_vat_code (CStr "") desc in
    Some {| show := show_name;
            sheet := sheet_name;
            date := shown_if cols r (c_date rc);
            ref := shown_if cols r (c_ref rc);
            supplier := shown_if cols r (c_supplier rc);
            description := shown_if cols r (c_desc rc);
            net := net;
            vat := vat;
            gross := gross;
            vat_code := Some vcode;
            source_type := src_type;
            raw := map (fun kv => (fst kv, if Cell.isna (snd kv) then CNone else snd kv))
                       (row_items cols r) |}.

Fixpoint filter_map {A B : Type} (f : A -> option B) (l : list A) : list B :=
  match l with
  | [] => []
  | x :: l' =>
      match f x with
      | Some y => y :: filter_map f l'
      | None => filter_map f l'
      end
  end.

(** [df.empty] *)
Definition frame_empty (df : DataFrame) : bool :=
  match columns df, rows df with
  | [], _ | _, [] => true
  | _, _ => false
  end.

(** The body of the loop over the sheets: the lines one sheet adds. *)
Definition parse_sheet (show_name file_name sheet_name : string)
    (read : option DataFrame) : list Line :=
  match read with
  | None => []
  | Some df =>
      if frame_empty df then []
      else
        let rc := resolve (columns df) in
        if negb (is_some (c_net rc) || is_some (c_vat rc) || is_some (c_gross rc))
        then []
        else
          let src_type := detect_source_type sheet_name file_name in
          filter_map (parse_row show_name sheet_name src_type (columns df) rc) (rows df)
  end.

Definition parse_excel (file_storage : FileStorage) : list Line :=
  let show_name := Path.splitext_root (filename file_storage) in
  flat_map (fun sh => parse_sheet show_name (filename file_storage) (fst sh) (snd sh))
           (sheets file_storage).

(** ** Box assignment *)

Inductive box_key : Type := B1 | B4 | B6 | B7 | B8 | B9.

(** The dictionary [{"1": .., "4": .., "6": .., "7": .., "8": .., "9": ..}]. *)
Record Boxes : Type := {
  box1 : float; box4 : float; box6 : float;
  box7 : float; box8 : float; box9 : float
}.

Definition box_keys : list box_key := [B1; B4; B6; B7; B8; B9].

Definition init_acc : Boxes :=
  {| box1 := zero; box4 := zero; box6 := zero;
     box7 := zero; box8 := zero; box9 := zero |}.

(** [b[k]] *)
Definition get_box (k : box_key) (b : Boxes) : float :=
  match k with
  | B1 => box1 b | B4 => box4 b | B6 => box6 b
  | B7 => box7 b | B8 => box8 b | B9 => box9 b
  end.

(** [b[k] += x] *)
Definition add_box (k : box_key) (x : float) (b : Boxes) : Boxes :=
  let y := (get_box k b + x)%float in
  match k with
  | B1 => {| box1 := y; box4 := box4 b; box6 := box6 b; box7 := box7 b; box8 := box8 b; box9 := box9 b |}
  | B4 => {| box1 := box1 b; box4 := y; box6 := box6 b; box7 := box7 b; box8 := box8 b; box9 := box9 b |}
  | B6 => {| box1 := box1 b; box4 := box4 b; box6 := y; box7 := box7 b; box8 := box8 b; box9 := box9 b |}
  | B7 => {| box1 := box1 b; box4 := box4 b; box6 := box6 b; box7 := y; box8 := box8 b; box9 := box9 b |}
  | B8 => {| box1 := box1 b; box4 := box4 b; box6 := box6 b; box7 := box7 b; box8 := y; box9 := box9 b |}
  | B9 => {| box1 := box1 b; box4 := box4 b; box6 := box6 b; box7 := box7 b; box8 := box8 b; box9 := y |}
  end.

(** [code == tag] for an optional code. *)
Definition code_is (code : option string) (tag : string) : bool :=
  match code with
  | Some c => String.eqb c tag
  | None => false
  end.

(** The conditions of the rule table, as the source writes them. *)
Definition sales_standard (ln : Line) : bool :=
  String.eqb (source_type ln) "sales" && code_is (vat_code ln) "T20".

Definition purchase_reclaim (ln : Line) : bool :=
  (String.eqb (source_type ln) "purchases" || String.eqb (source_type ln) "unknown")
  && (code_is (vat_code ln) "T20" || code_is (vat_code ln) "REDUCED").

Definition sales_zero (ln : Line) : bool :=
  String.eqb (source_type ln) "sales" && code_is (vat_code ln) "T0".

Definition ni_eu_sales (ln : Line) : bool :=
  (code_is (vat_code ln) "NI" || code_is (vat_code ln) "EU")
  && String.eqb (source_type ln) "sales".

Definition ni_eu_other (ln : Line) : bool :=
  (code_is (vat_code ln) "NI" || code_is (vat_code ln) "EU")
  && negb (String.eqb (source_type ln) "sales").

(** The [if / elif / elif] chain. *)
Definition chain_rules (b : Boxes) (ln : Line) : Boxes :=
  if sales_standard ln then add_box B6 (net ln) (add_box B1 (vat ln) b)
  else if purchase_reclaim ln then add_box B7 (net ln) (add_box B4 (vat ln) b)
  else if sales_zero ln then add_box B6 (net ln) b
  else b.

(** The two [if]s that follow the chain. *)
Definition ni_eu_rules (b : Boxes) (ln : Line) : Boxes :=
  let b := if ni_eu_sales ln then add_box B8 (net ln) b else b in
  if ni_eu_other ln then add_box B9 (net ln) b else b.

(** What one line does to the boxes of its show. *)
Definition apply_rules (b : Boxes) (ln : Line) : Boxes :=
  ni_eu_rules (chain_rules b ln) ln.

Record ShowAcc : Type := {
  boxes : Boxes;
  lines : list Line
}.

Definition new_acc : ShowAcc := {| boxes := init_acc; lines := [] |}.

(** The body of the loop over the lines, on the accumulator of the show. *)
Definition acc_step (ln : Line) (acc : ShowAcc) : ShowAcc :=
  {| boxes := apply_rules (boxes acc) ln; lines := lines acc ++ [ln] |}.

(** [acc = d.setdefault(k, fresh)] followed by the update [f] of [acc] in
    place: an existing show keeps its place, a new one goes last. *)
Fixpoint setdefault_update (k : string) (fresh : ShowAcc) (f : ShowAcc -> ShowAcc)
    (d : Dict.t ShowAcc) : Dict.t ShowAcc :=
  match d with
  | [] => [(k, f fresh)]
  | (k', acc) :: d' =>
      if String.eqb k' k then (k', f acc) :: d'
      else (k', acc) :: setdefault_update k fresh f d'
  end.

Definition aggregate_line (per_show : Dict.t ShowAcc) (ln : Line) : Dict.t ShowAcc :=
  setdefault_update (show ln) new_acc (acc_step ln) per_show.

(** [for k in consolidated: consolidated[k] += acc["boxes"][k]] *)
Definition add_group (consolidated : Boxes) (acc : ShowAcc) : Boxes :=
  fold_left (fun c k => add_box k (get_box k (boxes acc)) c) box_keys consolidated.

Record Totals : Type := {
  per_show : Dict.t ShowAcc;
  consolidated : Boxes
}.

Definition assign_boxes (lns : list Line) : Totals :=
  let per_show := fold_left aggregate_line lns [] in
  {| per_show := per_show;
     consolidated := fold_left add_group (map snd per_show) init_acc |}.

(** The boxes of a show in the result, if the show has a group. *)
Definition show_boxes (t : Totals) (name : string) : option Boxes :=
  option_map boxes (Dict.get name (per_show t)).

(** ** Notions the statements below are written with *)

(** [k] occurs somewhere in [d]. *)
Definition is_substring (k d : string) : Prop :=
  exists pre post, d = pre ++ k ++ post.

(** The first entry of a table whose key occurs in [d], with the entries
    in front of it, whose keys do not. *)
Definition first_key_in (table : Dict.t string) (d : string) (v : string) : Prop :=
  exists before k after,
    table = (before ++ (k, v) :: after)%list
    /\ is_substring k d
    /\ forall k' v', In (k', v') before -> ~ is_substring k' d.

Definition no_key_in (table : Dict.t string) (d : string) : Prop :=
  forall k v, In (k, v) table -> ~ is_substring k d.

(** The seven canonical tags. *)
Definition canonical_tags : list string :=
  ["T20"; "T0"; "EXEMPT"; "OOS"; "REDUCED"; "NI"; "EU"].

(** The names of a list without repeats, each at its first place. *)
Fixpoint first_seen (names : list string) : list string :=
  match names with
  | [] => []
  | x :: names' => x :: filter (fun y => negb (String.eqb y x)) (first_seen names')
  end.

(** The lines of one show, in input order. *)
Definition lines_of (name : string) (lns : list Line) : list Line :=
  filter (fun ln => String.eqb (show ln) name) lns.

Definition has_show (name : string) (lns : list Line) : bool :=
  existsb (fun ln => String.eqb (show ln) name) lns.

(** The rule table read by box: what a line adds to box [k], if anything. *)
Definition addend (k : box_key) (ln : Line) : option float :=
  match k with
  | B1 => if sales_standard ln then Some (vat ln) else None
  | B4 => if purchase_reclaim ln then Some (vat ln) else None
  | B6 => if sales_standard ln || sales_zero ln then Some (net ln) else None
  | B7 => if purchase_reclaim ln then Some (net ln) else None
  | B8 => if ni_eu_sales ln then Some (net ln) else None
  | B9 => if ni_eu_other ln then Some (net ln) else None
  end.

Definition addends (k : box_key) (lns : list Line) : list float :=
  filter_map (addend k) lns.

(** A sum of floats taken from the left, starting at [0.0]. *)
Definition fsum (xs : list float) : float := fold_left PrimFloat.add xs zero.

(** The total of box [k] of the group [name], when there is such a group. *)
Definition group_total (t : Totals) (name : string) (k : box_key) : option float :=
  option_map (get_box k) (show_boxes t name).

(** The totals of box [k] of all groups, in the order of the groups. *)
Definition group_totals (t : Totals) (k : box_key) : list float :=
  map (fun entry => get_box k (boxes (snd entry))) (per_show t).

(** The condition under which [parse_row] drops a row. *)
Definition all_zero (cols : list string) (rc : Resolved) (r : list cell) : bool :=
  PrimFloat.eqb (row_net cols rc r) zero
  && PrimFloat.eqb (row_vat cols rc r) zero
  && PrimFloat.eqb (row_gross cols rc r) zero.

(** Column resolution as the specification words it: every candidate is
    paired with every header, candidates first and headers second; the
    first exact pair wins, and the first containing pair otherwise. *)
Definition exact_pair (p : string * string) : bool :=
  String.eqb (PyStr.lower (fst p)) (norm_header (snd p)).

Definition containing_pair (p : string * string) : bool :=
  PyStr.contains (PyStr.lower (fst p)) (PyStr.lower (snd p)).

Definition find_col_spec (columns keys : list string) : option string :=
  match find exact_pair (list_prod keys columns) with
  | Some p => Some (snd p)
  | None => option_map snd (find containing_pair (list_prod keys columns))
  end.

(** The text of a string cell as [_to_float] hands it to [float]. *)
Definition cleaned (s : string) : string := PyStr.strip (PyStr.remove_commas s).

(** The last character of a string, if it has one. *)
Fixpoint last_char (s : string) : option ascii :=
  match s with
  | EmptyString => None
  | String c EmptyString => Some c
  | String _ s' => last_char s'
  end.

(** The text parsed neither starts nor ends with a space. *)
Definition trimmed (t : string) : Prop :=
  match t with
  | String c _ => PyStr.isspace c = false
  | EmptyString => True
  end
  /\ match last_char t with
     | Some c => PyStr.isspace c = false
     | None => True
     end.

(** Every entry of the header table pairs a header with its normal form. *)
Definition normal_entries (d : Dict.t string) : Prop :=
  Forall (fun entry => snd entry = norm_header (fst entry)) d.

(** A line put on another sheet. *)
Definition on_sheet (rename : Line -> string) (ln : Line) : Line :=
  {| show := show ln; sheet := rename ln;
     date := date ln; ref := ref ln; supplier := supplier ln;
     description := description ln;
     net := net ln; vat := vat ln; gross := gross ln;
     vat_code := vat_code ln; source_type := source_type ln; raw := raw ln |}.

(** The accumulator of a show after the lines [lns], started from [acc]. *)
Definition run_acc (lns : list Line) (acc : ShowAcc) : ShowAcc :=
  fold_left (fun a ln => acc_step ln a) lns acc.

(** ** Sample inputs *)

Definition sample_line (show_name sheet_name src code : string) (n v : float) : Line :=
  {| show := show_name; sheet := sheet_name;
     date := None; ref := None; supplier := None; description := None;
     net := n; vat := v; gross := (n + v)%float;
     vat_code := Some code; source_type := src; raw := [] |}.

(** Three standard-rated sales of one show, and the same in reverse. *)
Definition tenths : list Line :=
  [ sample_line "march" "Sales" "sales" "T20" 1 0.1;
    sample_line "march" "Sales" "sales" "T20" 2 0.2;
    sample_line "march" "More sales" "sales" "T20" 3 0.3 ].

Definition tenths_reversed : list Line := rev tenths.

(** A sales line to the EU with a net amount of 50. *)
Definition eu_sale : Line := sample_line "march" "Sales" "sales" "EU" 50 0.

(** A sheet with amounts and neither a code nor a description column. *)
Definition bare_frame : DataFrame :=
  {| columns := ["Net"; "Tax"];
     rows := [ [CStr "1,000.50"; CInt 200]; [CInt 0; CNone] ] |}.

Definition bare_line : Line :=
  {| show := "show1"; sheet := "Sheet1";
     date := None; ref := None; supplier := None; description := None;
     net := 1000.5; vat := 200; gross := 1200.5;
     vat_code := Some "EXEMPT"; source_type := "unknown";
     raw := [("Net", CStr "1,000.50"); ("Tax", CInt 200)] |}.

(** ** The upload and export routes *)

(** An uploaded file as [api_parse] meets it: [parse_excel] returns its
    lines, or raises with the message [why] (a file that is no workbook). *)
Inductive upload : Type :=
| Readable (file_storage : FileStorage)
| Unreadable (name : string) (why : string).

(** What [api_parse] has when it reaches [json.dumps]: the error it
    returned before, or the result it hands over. *)
Inductive response : Type :=
| Bad_request (error : string)
| Parsed (result : Totals).

(** The loop over the files: the lines so far, or the error of the first
    file that raises. *)
Fixpoint collect_lines (files : list upload) (all_lines : list Line)
    : string + list Line :=
  match files with
  | [] => inr all_lines
  | Readable fs :: files' => collect_lines files' (all_lines ++ parse_excel fs)
  | Unreadable name why :: _ => inl ("Failed to parse " ++ name ++ ": " ++ why)
  end.

(** [acc["lines"] = acc["lines"][:500]] for every show. *)
Definition cap_preview (t : Totals) : Totals :=
  {| per_show :=
       map (fun entry =>
              (fst entry,
               {| boxes := boxes (snd entry);
                  lines := firstn 500 (lines (snd entry)) |}))
           (per_show t);
     consolidated := consolidated t |}.

Definition api_parse (files : list upload) : response :=
  match files with
  | [] => Bad_request "No files uploaded"
  | _ :: _ =>
      match collect_lines files [] with
      | inl error => Bad_request error
      | inr all_lines => Parsed (cap_preview (assign_boxes all_lines))
      end
  end.

(** [[A-Za-z0-9]] *)
Definition is_ascii_alnum (c : ascii) : bool :=
  PyStr.in_range 65 90 c || PyStr.in_range 97 122 c || PyStr.in_range 48 57 c.

(** [re.sub(r"[^A-Za-z0-9]+", "_", s)]; [in_run] tells that the previous
    character was replaced. *)
Fixpoint sub_non_alnum_from (in_run : bool) (s : string) : string :=
  match s with
  | EmptyString => EmptyString
  | String c s' =>
      if is_ascii_alnum c then String c (sub_non_alnum_from false s')
      else if in_run then sub_non_alnum_from true s'
           else String "_" (sub_non_alnum_from true s')
  end.

(** [safe_name] of [api_export]. *)
Definition safe_name (show_name : string) : string :=
  PyStr.take 28 (sub_non_alnum_from false show_name).

(** The name of the detail sheet of a show. *)
Definition detail_sheet_name (show_name : string) : string :=
  safe_name show_name ++ "_detail".

(** ** Further notions for the statements *)

(** The eight tags the normaliser can return. *)
Definition all_tags : list string := (canonical_tags ++ ["UNKNOWN"])%list.

(** The last family of [VAT_CODE_REGEX], the only one without a blank. *)
Definition ni_eu_family : Re.regex :=
  (Re.Lit "ni"
     </> Re.Lit "northern" <.> Re.Spaces <.> Re.Lit "ireland"
     </> Re.WordB <.> Re.Lit "EU" <.> Re.WordB
     </> Re.WordB <.> Re.Lit "EC" <.> Re.WordB)%re.

(** [s] holds no blank (U+0020). *)
Fixpoint no_blank (s : string) : bool :=
  match s with
  | EmptyString => true
  | String c s' => negb (Ascii.eqb c " ") && no_blank s'
  end.

(** [t] is [s] or what is left of [s] after some of its characters. *)
Fixpoint is_suffix (t s : string) : Prop :=
  t = s \/ match s with
           | EmptyString => False
           | String _ s' => is_suffix t s'
           end.

(** What the rule table reads of a line. *)
Definition rule_view (ln : Line) : string * string * option string * float * float :=
  (show ln, source_type ln, vat_code ln, net ln, vat ln).

(** Every character of [s] satisfies [p]. *)
Fixpoint all_chars (p : ascii -> bool) (s : string) : bool :=
  match s with
  | EmptyString => true
  | String c s' => p c && all_chars p s'
  end.

Definition sales_words : list string := ["sale"; "ar"; "output"].
Definition purchase_words : list string := ["purchase"; "ap"; "input"; "payable"].


(** A sheet with a gross column only, and the line of its row. *)
Definition total_frame : DataFrame :=
  {| columns := ["Total"]; rows := [ [CInt 120] ] |}.

Definition total_line : Line :=
  {| show := "show1"; sheet := "Totals";
     date := None; ref := None; supplier := None; description := None;
     net := 0; vat := 0; gross := 120;
     vat_code := Some "EXEMPT"; source_type := "unknown";
     raw := [("Total", CInt 120)] |}.

(** ** Headers word by word *)

(** [w :: ws] unless [w] is empty. *)
Definition cons_word (w : string) (ws : list string) : list string :=
  match w with
  | EmptyString => ws
  | String _ _ => w :: ws
  end.

(** The characters of [s] up to its first space, and the words after it. *)
Fixpoint words_aux (s : string) : string * list string :=
  match s with
  | EmptyString => (EmptyString, [])
  | String c s' =>
      let '(w, ws) := words_aux s' in
      if PyStr.isspace c then (EmptyString, cons_word w ws)
      else (String c w, ws)
  end.

(** The words of [s]: its maximal runs of characters that are no spaces
    ([s.split()]). *)
Definition words (s : string) : list string :=
  let '(w, ws) := words_aux s in cons_word w ws.

(** Each word with a blank in front of it. *)
Fixpoint blank_before_each (ws : list string) : string :=
  match ws with
  | [] => EmptyString
  | w :: ws' => String " " (w ++ blank_before_each ws')
  end.

(** The words with one blank between two of them ([" ".join(ws)]). *)
Definition join_blank (ws : list string) : string :=
  match ws with
  | [] => EmptyString
  | w :: ws' => w ++ blank_before_each ws'
  end.

(** A header equals a candidate, letter case ignored and with every run of
    spaces in the header counted as one blank and the spaces at its ends
    dropped: the candidate, lower-cased, is the words of the header,
    lower-cased and joined by single blanks. *)
Definition equal_by_words (p : string * string) : bool :=
  String.eqb (PyStr.lower (fst p)) (PyStr.lower (join_blank (words (snd p)))).

(** Column resolution worded with [equal_by_words] for the exact mode. *)
Definition find_col_by_words (columns keys : list string) : option string :=
  match find equal_by_words (list_prod keys columns) with
  | Some p => Some (snd p)
  | None => option_map snd (find containing_pair (list_prod keys columns))
  end.

(** ** The rows of the rule table, on the fields of a line *)

Definition row_sales_standard (ln : Line) : Prop :=
  source_type ln = "sales" /\ vat_code ln = Some "T20".

Definition row_purchase_reclaim (ln : Line) : Prop :=
  (source_type ln = "purchases" \/ source_type ln = "unknown")
  /\ (vat_code ln = Some "T20" \/ vat_code ln = Some "REDUCED").

Definition row_sales_zero (ln : Line) : Prop :=
  source_type ln = "sales" /\ vat_code ln = Some "T0".

Definition row_ni_eu_sales (ln : Line) : Prop :=
  (vat_code ln = Some "NI" \/ vat_code ln = Some "EU") /\ source_type ln = "sales".

Definition row_ni_eu_other (ln : Line) : Prop :=
  (vat_code ln = Some "NI" \/ vat_code ln = Some "EU") /\ source_type ln <> "sales".

(** The boxes [b] with [x] added to box 1 and [y] to box 6, and so on. *)
Definition plus_1_6 (b : Boxes) (x y : float) : Boxes :=
  {| box1 := (box1 b + x)%float; box4 := box4 b; box6 := (box6 b + y)%float;
     box7 := box7 b; box8 := box8 b; box9 := box9 b |}.

Definition plus_4_7 (b : Boxes) (x y : float) : Boxes :=
  {| box1 := box1 b; box4 := (box4 b + x)%float; box6 := box6 b;
     box7 := (box7 b + y)%float; box8 := box8 b; box9 := box9 b |}.

Definition plus_6 (b : Boxes) (y : float) : Boxes :=
  {| box1 := box1 b; box4 := box4 b; box6 := (box6 b + y)%float;
     box7 := box7 b; box8 := box8 b; box9 := box9 b |}.

Definition plus_8 (b : Boxes) (y : float) : Boxes :=
  {| box1 := box1 b; box4 := box4 b; box6 := box6 b;
     box7 := box7 b; box8 := (box8 b + y)%float; box9 := box9 b |}.

Definition plus_9 (b : Boxes) (y : float) : Boxes :=
  {| box1 := box1 b; box4 := box4 b; box6 := box6 b;
     box7 := box7 b; box8 := box8 b; box9 := (box9 b + y)%float |}.

(** A purchase at the reduced rate, and a sale to Northern Ireland. *)
Definition reduced_purchase : Line :=
  sample_line "march" "Costs" "purchases" "REDUCED" 200 10.

(** Boxes that are all different, to tell them apart. *)
Definition some_boxes : Boxes :=
  {| box1 := 1; box4 := 4; box6 := 6; box7 := 7; box8 := 8; box9 := 9 |}.

(** * Properties *)

(** ** Strings *)

Lemma startswith_iff (p s : string) :
  PyStr.startswith p s = true <-> exists post, s = p ++ post.
Proof.
  revert s; induction p as [|a p IH]; intros s; simpl.
  - split; [intros _; now exists s | reflexivity].
  - destruct s as [|b s].
    + split; [discriminate | intros [post H]; discriminate].
    + rewrite andb_true_iff, IH. split.
      * intros [Hab [post ->]]. apply Ascii.eqb_eq in Hab. subst b. now exists post.
      * intros [post H]. injection H as -> ->. split.
        -- apply Ascii.eqb_refl.
        -- now exists post.
Qed.

Lemma contains_iff (k d : string) :
  PyStr.contains k d = true <-> is_substring k d.
Proof.
  unfold is_substring. induction d as [|c d IH].
  - cbn [PyStr.contains]. rewrite orb_false_r, startswith_iff. split.
    + intros [post H]. now exists "", post.
    + intros [pre [post H]]. destruct pre; [now exists post | discriminate].
  - cbn [PyStr.contains]. rewrite orb_true_iff, startswith_iff, IH. split.
    + intros [[post H] | [pre [post H]]].
      * now exists "", post.
      * exists (String c pre), post. now rewrite H.
    + intros [pre [post H]]. destruct pre as [|c' pre].
      * left. now exists post.
      * right. injection H as _ H. now exists pre, post.
Qed.

Lemma contains_false_iff (k d : string) :
  PyStr.contains k d = false <-> ~ is_substring k d.
Proof.
  rewrite <- contains_iff. destruct (PyStr.contains k d); split; congruence.
Qed.

(** ** The table scan *)

Lemma scan_table_some (table : Dict.t string) (d v : string) :
  scan_table table d = Some v -> first_key_in table d v.
Proof.
  induction table as [|[k w] table IH]; simpl; [discriminate|].
  destruct (PyStr.contains k d) eqn:Hk.
  - intros [= ->]. exists [], k, table. repeat split.
    + now apply contains_iff.
    + intros ? ? [].
  - intros H. destruct (IH H) as (before & k0 & after & -> & Hin & Hno).
    exists ((k, w) :: before), k0, after. repeat split; trivial.
    intros k' v' [[= <- <-] | Hb].
    + now apply contains_false_iff.
    + now apply (Hno k' v').
Qed.

Lemma scan_table_none (table : Dict.t string) (d : string) :
  scan_table table d = None -> no_key_in table d.
Proof.
  induction table as [|[k w] table IH]; simpl; intros H k' v' Hin; [destruct Hin|].
  destruct (PyStr.contains k d) eqn:Hk; [discriminate|].
  destruct Hin as [[= <- <-] | Hin].
  - now apply contains_false_iff.
  - now apply (IH H k' v').
Qed.

Lemma empty_token_resolves_nothing :
  regex_stage "" = None /\ token_stage "" = None.
Proof. split; reflexivity. Qed.

(** C1 (the rule behind it): when neither the regex buckets nor the direct
    tokens resolve the code token, the normaliser lower-cases the fallback
    description and returns the tag of the first entry of the token table,
    in table order, whose key occurs anywhere in it, and UNKNOWN when no
    key occurs in it. *)
Theorem description_scan_decides (val : cell) (description : string) :
  regex_stage (code_token val) = None ->
  token_stage (code_token val) = None ->
  first_key_in NORMALISE_MAP (PyStr.lower description)
    (normalise_vat_code val description)
  \/ (no_key_in NORMALISE_MAP (PyStr.lower description)
      /\ normalise_vat_code val description = "UNKNOWN").
Proof.
  intros Hre Htok. unfold normalise_vat_code, description_stage.
  rewrite Hre, Htok.
  destruct (scan_table NORMALISE_MAP (PyStr.lower description)) as [v|] eqn:Hscan.
  - left. now apply scan_table_some.
  - right. split; [now apply scan_table_none | reflexivity].
Qed.

Lemma description_scan_decides_witness :
  first_key_in NORMALISE_MAP (PyStr.lower "Sale to EU customer")
    (normalise_vat_code (CStr "") "Sale to EU customer")
  \/ (no_key_in NORMALISE_MAP (PyStr.lower "Sale to EU customer")
      /\ normalise_vat_code (CStr "") "Sale to EU customer" = "UNKNOWN").
Proof.
  apply (description_scan_decides (CStr "") "Sale to EU customer"); reflexivity.
Defined.

(** C1 (the example as the specification gives it): with an empty code
    token and the description "Sale to EU customer" the normaliser does not
    return EU; the key "e" stands before "eu" in the table and occurs in
    "sale", so the result is EXEMPT. *)
Lemma sale_to_eu_customer_is_not_eu :
  normalise_vat_code (CStr "") "Sale to EU customer" = "EXEMPT"
  /\ normalise_vat_code (CStr "") "Sale to EU customer" <> "EU".
Proof. split; [reflexivity | discriminate]. Qed.

(** C2: six of the seven canonical tags normalise to themselves with an
    empty description; the tag EU does not: the regex bucket matches "eu"
    and the table scan of the match finds the key "e" first, giving EXEMPT. *)
Theorem canonical_tags_normalised :
  map (fun tag => normalise_vat_code (CStr tag) "") canonical_tags
  = ["T20"; "T0"; "EXEMPT"; "OOS"; "REDUCED"; "NI"; "EXEMPT"]
  /\ Re.search VAT_CODE_REGEX "eu" = Some "eu"
  /\ scan_table NORMALISE_MAP "eu" = Some "EXEMPT"
  /\ token_stage "eu" = Some "EU".
Proof. repeat split; reflexivity. Qed.

(** ** Value coercion *)

Lemma remove_commas_no_comma (s : string) :
  PyStr.contains "," (PyStr.remove_commas s) = false.
Proof.
  induction s as [|c s IH]; [reflexivity|].
  cbn [PyStr.remove_commas]. destruct (Ascii.eqb c ",") eqn:Hc; [exact IH|].
  cbn [PyStr.contains PyStr.startswith]. rewrite IH.
  rewrite Ascii.eqb_sym, Hc. reflexivity.
Qed.

Lemma rstrip_no_comma (s : string) :
  PyStr.contains "," s = false -> PyStr.contains "," (PyStr.rstrip s) = false.
Proof.
  induction s as [|c s IH]; [reflexivity|].
  cbn [PyStr.contains PyStr.startswith PyStr.rstrip].
  intros H. apply orb_false_iff in H as [Hc Hs]. specialize (IH Hs).
  destruct (PyStr.rstrip s) as [|c' r].
  - destruct (PyStr.isspace c); [reflexivity|].
    cbn [PyStr.contains PyStr.startswith]. now rewrite Hc.
  - cbn [PyStr.contains PyStr.startswith] in *. now rewrite Hc, IH.
Qed.

Lemma lstrip_no_comma (s : string) :
  PyStr.contains "," s = false -> PyStr.contains "," (PyStr.lstrip s) = false.
Proof.
  induction s as [|c s IH]; [reflexivity|].
  cbn [PyStr.lstrip]. destruct (PyStr.isspace c); [|trivial].
  cbn [PyStr.contains PyStr.startswith]. intros H.
  apply orb_false_iff in H as [_ Hs]. now apply IH.
Qed.

Lemma cleaned_no_comma (s : string) : PyStr.contains "," (cleaned s) = false.
Proof.
  unfold cleaned, PyStr.strip.
  apply rstrip_no_comma, lstrip_no_comma, remove_commas_no_comma.
Qed.

Lemma lstrip_head (s : string) :
  match PyStr.lstrip s with
  | String c _ => PyStr.isspace c = false
  | EmptyString => True
  end.
Proof.
  induction s as [|c s IH]; [exact I|].
  cbn [PyStr.lstrip]. destruct (PyStr.isspace c) eqn:Hc; [exact IH | exact Hc].
Qed.

Lemma rstrip_head (s : string) :
  match s with
  | String c _ =>
      PyStr.isspace c = false ->
      match PyStr.rstrip s with
      | String c' _ => c' = c
      | EmptyString => False
      end
  | EmptyString => True
  end.
Proof.
  destruct s as [|c s]; [exact I|]. intros Hc.
  cbn [PyStr.rstrip]. destruct (PyStr.rstrip s); [now rewrite Hc | reflexivity].
Qed.

Lemma rstrip_last (s : string) :
  match last_char (PyStr.rstrip s) with
  | Some c => PyStr.isspace c = false
  | None => True
  end.
Proof.
  induction s as [|c s IH]; [exact I|].
  cbn [PyStr.rstrip]. destruct (PyStr.rstrip s) as [|c' r] eqn:Hr.
  - destruct (PyStr.isspace c) eqn:Hc; [exact I | exact Hc].
  - exact IH.
Qed.

(** The cleaned text neither starts nor ends with a space. *)
Lemma cleaned_trimmed (s : string) : trimmed (cleaned s).
Proof.
  unfold trimmed, cleaned, PyStr.strip. split; [|apply rstrip_last].
  pose proof (lstrip_head (PyStr.remove_commas s)) as Hl.
  pose proof (rstrip_head (PyStr.lstrip (PyStr.remove_commas s))) as Hr.
  destruct (PyStr.lstrip (PyStr.remove_commas s)) as [|c t]; [exact I|].
  specialize (Hr Hl).
  destruct (PyStr.rstrip (String c t)); [exact I | now subst].
Qed.

(** C8: value coercion returns a float for every cell and never raises. A
    missing value gives 0.0. A string has its commas removed and is trimmed
    before it is parsed: the text parsed holds no comma and no space at
    either end, and the result is the parsed number, or 0.0 when the text
    does not parse. Any cell whose conversion raises gives 0.0. The string
    "1,234.56" gives 1234.56. *)
Theorem to_float_total_and_safe :
  (forall x, Cell.isna x = true -> _to_float x = zero)
  /\ (forall s,
        _to_float (CStr s)
        = match PyFloat.of_string (cleaned s) with Some f => f | None => zero end
        /\ PyStr.contains "," (cleaned s) = false
        /\ trimmed (cleaned s))
  /\ (forall x, _to_float_try x = None -> _to_float x = zero)
  /\ (forall x, exists f,
        _to_float x = f
        /\ (_to_float_try x = Some f \/ (_to_float_try x = None /\ f = zero)))
  /\ _to_float (CStr "1,234.56") = 1234.56%float
  /\ _to_float (CStr "12 apples") = zero
  /\ _to_float (CDate "2024-03-01 00:00:00") = zero
  /\ _to_float CNone = zero.
Proof.
  split; [|split; [|split; [|split]]].
  - intros x Hx. unfold _to_float, _to_float_try. now rewrite Hx.
  - intros s. split; [reflexivity|].
    split; [apply cleaned_no_comma | apply cleaned_trimmed].
  - intros x Hx. unfold _to_float. now rewrite Hx.
  - intros x. unfold _to_float. destruct (_to_float_try x) as [f|].
    + exists f. auto.
    + exists zero. auto.
  - repeat split; reflexivity.
Qed.

Lemma to_float_total_and_safe_witness :
  _to_float (CFloat nan "nan") = zero
  /\ _to_float (CDate "12:30:00") = zero.
Proof.
  destruct to_float_total_and_safe as (Hna & _ & Hraise & _).
  split; [apply Hna | apply Hraise]; reflexivity.
Defined.

(** ** Record extraction *)

Lemma in_filter_map {A B : Type} (f : A -> option B) (l : list A) (y : B) :
  In y (filter_map f l) <-> exists x, In x l /\ f x = Some y.
Proof.
  induction l as [|a l IH]; simpl.
  - split; [intros [] | intros [x [[] _]]].
  - destruct (f a) as [b|] eqn:Hfa; simpl; rewrite IH; split.
    + intros [<- | [x [Hx Hy]]]; [exists a; auto | exists x; auto].
    + intros [x [[<- | Hx] Hy]]; [left; congruence | right; exists x; auto].
    + intros [x [Hx Hy]]. exists x; auto.
    + intros [x [[<- | Hx] Hy]]; [congruence | exists x; auto].
Qed.

Lemma filter_map_app {A B : Type} (f : A -> option B) (l1 l2 : list A) :
  filter_map f (l1 ++ l2)%list = (filter_map f l1 ++ filter_map f l2)%list.
Proof.
  induction l1 as [|a l1 IH]; simpl; [reflexivity|].
  destruct (f a); simpl; now rewrite IH.
Qed.

(** A line of a sheet comes from one of its rows, through [parse_row] with
    the headers the sheet resolves. *)
Lemma parse_sheet_line (show_name file_name sheet_name : string)
    (df : DataFrame) (ln : Line) :
  In ln (parse_sheet show_name file_name sheet_name (Some df)) ->
  exists r,
    In r (rows df)
    /\ parse_row show_name sheet_name (detect_source_type sheet_name file_name)
         (columns df) (resolve (columns df)) r = Some ln.
Proof.
  unfold parse_sheet. destruct (frame_empty df); [intros []|].
  destruct (negb _); [intros []|].
  intros H. now apply in_filter_map in H.
Qed.

Lemma parse_row_zero (show_name sheet_name src : string)
    (cols : list string) (rc : Resolved) (r : list cell) :
  all_zero cols rc r = true ->
  parse_row show_name sheet_name src cols rc r = None.
Proof.
  unfold all_zero, parse_row. now intros ->.
Qed.

Lemma parse_row_amounts (show_name sheet_name src : string)
    (cols : list string) (rc : Resolved) (r : list cell) (ln : Line) :
  parse_row show_name sheet_name src cols rc r = Some ln ->
  all_zero cols rc r = false
  /\ net ln = row_net cols rc r
  /\ vat ln = row_vat cols rc r
  /\ gross ln = row_gross cols rc r.
Proof.
  unfold all_zero, parse_row.
  destruct (_ && _ && _); [discriminate|].
  intros [= <-]. repeat split; reflexivity.
Qed.

Lemma frame_empty_app_cons (cols : list string) (pre post : list (list cell)) (r : list cell) :
  frame_empty {| columns := cols; rows := pre ++ r :: post |} = false
  \/ cols = [].
Proof.
  unfold frame_empty; simpl. destruct cols; [now right|left].
  now destruct pre.
Qed.

(** C6: a row whose three coerced amounts are all zero gives no line: the
    loop body returns nothing for it, and the lines of the sheet are those of
    the sheet without that row. *)
Theorem zero_row_gives_no_line (cols : list string) (r : list cell) :
  all_zero cols (resolve cols) r = true ->
  (forall show_name sheet_name src,
      parse_row show_name sheet_name src cols (resolve cols) r = None)
  /\ (forall show_name file_name sheet_name pre post,
        parse_sheet show_name file_name sheet_name
          (Some {| columns := cols; rows := pre ++ r :: post |})
        = parse_sheet show_name file_name sheet_name
            (Some {| columns := cols; rows := pre ++ post |})).
Proof.
  intros Hz. split.
  - intros. now apply parse_row_zero.
  - intros. unfold parse_sheet. cbn [columns rows].
    destruct (frame_empty_app_cons cols pre post r) as [He1 | ->];
      [|reflexivity].
    rewrite He1. destruct (negb _).
    + destruct (frame_empty {| columns := cols; rows := (pre ++ post)%list |});
        reflexivity.
    + rewrite filter_map_app. cbn [filter_map].
      rewrite (parse_row_zero _ _ _ _ _ _ Hz), <- filter_map_app.
      destruct (frame_empty {| columns := cols; rows := (pre ++ post)%list |}) eqn:He;
        [|reflexivity].
      unfold frame_empty in He, He1. cbn [columns rows] in He, He1.
      destruct cols; [discriminate|].
      destruct (pre ++ post)%list; [reflexivity | discriminate].
Qed.

Lemma zero_row_gives_no_line_witness :
  parse_sheet "show1" "show1.xlsx" "Sheet1" (Some bare_frame)
  = parse_sheet "show1" "show1.xlsx" "Sheet1"
      (Some {| columns := ["Net"; "Tax"]; rows := [ [CStr "1,000.50"; CInt 200] ] |}).
Proof.
  apply (proj2 (zero_row_gives_no_line ["Net"; "Tax"] [CInt 0; CNone] eq_refl)
           "show1" "show1.xlsx" "Sheet1" [ [CStr "1,000.50"; CInt 200] ] []).
Defined.

(** Every line [parse_excel] returns has an amount that is not zero. *)
Lemma parse_excel_lines_not_zero (file_storage : FileStorage) (ln : Line) :
  In ln (parse_excel file_storage) ->
  PrimFloat.eqb (net ln) zero && PrimFloat.eqb (vat ln) zero
  && PrimFloat.eqb (gross ln) zero = false.
Proof.
  unfold parse_excel. intros H. apply in_flat_map in H as [[name read] [_ H]].
  cbn [fst snd] in H. destruct read as [df|]; [|destruct H].
  apply parse_sheet_line in H as [r [_ H]].
  apply parse_row_amounts in H as (Hz & -> & -> & ->). exact Hz.
Qed.

(** C7: in a sheet where no gross column resolves, every line extracted
    has its gross equal to the float sum of its net and its vat: it is that
    very float, and Python's [==] between the two answers true unless the
    sum is NaN. *)
Theorem gross_defaults_to_net_plus_vat
    (show_name file_name sheet_name : string) (df : DataFrame) (ln : Line) :
  c_gross (resolve (columns df)) = None ->
  In ln (parse_sheet show_name file_name sheet_name (Some df)) ->
  gross ln = (net ln + vat ln)%float
  /\ PrimFloat.eqb (gross ln) (net ln + vat ln) = negb (is_nan (net ln + vat ln)).
Proof.
  intros Hg H. apply parse_sheet_line in H as [r [_ H]].
  apply parse_row_amounts in H as (_ & Hn & Hv & Hgr).
  assert (Hsum : gross ln = (net ln + vat ln)%float).
  { rewrite Hgr, Hn, Hv. unfold row_gross. now rewrite Hg. }
  split; [exact Hsum|].
  rewrite Hsum. unfold is_nan. now rewrite negb_involutive.
Qed.

Lemma gross_defaults_to_net_plus_vat_witness :
  gross bare_line = (net bare_line + vat bare_line)%float
  /\ PrimFloat.eqb (gross bare_line) (net bare_line + vat bare_line)
     = negb (is_nan (net bare_line + vat bare_line)).
Proof.
  apply (gross_defaults_to_net_plus_vat "show1" "show1.xlsx" "Sheet1" bare_frame bare_line).
  - reflexivity.
  - left. reflexivity.
Defined.

(** C10: in a sheet where neither a VAT-code column nor a description
    column resolves, every line extracted has the code EXEMPT: the fallback
    description is the rendering "None" of the absent cell, and the key "e"
    occurs in "none". *)
Theorem no_code_no_description_is_exempt
    (show_name file_name sheet_name : string) (df : DataFrame) (ln : Line) :
  c_code (resolve (columns df)) = None ->
  c_desc (resolve (columns df)) = None ->
  In ln (parse_sheet show_name file_name sheet_name (Some df)) ->
  vat_code ln = Some "EXEMPT"
  /\ Cell.str (row_get (columns df) [] None) = "None"
  /\ first_key_in NORMALISE_MAP "none" "EXEMPT".
Proof.
  intros Hc Hd H. split; [|split; [reflexivity|]].
  - apply parse_sheet_line in H as [r [_ H]].
    unfold parse_row in H. rewrite Hc, Hd in H.
    destruct (_ && _ && _); [discriminate|].
    injection H as <-. reflexivity.
  - now apply scan_table_some.
Qed.

Lemma no_code_no_description_is_exempt_witness :
  vat_code bare_line = Some "EXEMPT".
Proof.
  apply (no_code_no_description_is_exempt "show1" "show1.xlsx" "Sheet1" bare_frame bare_line).
  - reflexivity.
  - reflexivity.
  - left. reflexivity.
Defined.

(** ** The rule table *)

Ltac case_string x s :=
  destruct (String.eqb_spec x s) as [-> | ?]; cbn.

(** Splits a line on the source types and codes the rules look at. *)
Ltac split_line ln :=
  destruct ln as [sh st dt rf sp ds n v g code src rw];
  unfold sales_standard, purchase_reclaim, sales_zero, ni_eu_sales, ni_eu_other;
  cbn [source_type vat_code net vat code_is];
  case_string src "sales";
  [ | case_string src "purchases"; [ | case_string src "unknown" ] ];
  (destruct code as [c | ]; cbn;
   [ case_string c "T20";
     [ | case_string c "REDUCED";
         [ | case_string c "T0";
             [ | case_string c "NI"; [ | case_string c "EU" ] ] ] ]
   | ]).

Lemma chain_exclusive (ln : Line) :
  sales_standard ln && purchase_reclaim ln = false
  /\ sales_standard ln && sales_zero ln = false
  /\ purchase_reclaim ln && sales_zero ln = false.
Proof. split_line ln; repeat split; reflexivity. Qed.

(** The codes of the NI/EU rules are not those of the chain, so a line
    meets at most one of the five conditions. *)
Lemma ni_eu_excludes_chain (ln : Line) :
  (ni_eu_sales ln || ni_eu_other ln)
  && (sales_standard ln || purchase_reclaim ln || sales_zero ln) = false
  /\ ni_eu_sales ln && ni_eu_other ln = false.
Proof. split_line ln; repeat split; reflexivity. Qed.

Lemma apply_rules_box (b : Boxes) (ln : Line) (k : box_key) :
  get_box k (apply_rules b ln)
  = match addend k ln with
    | Some x => (get_box k b + x)%float
    | None => get_box k b
    end.
Proof.
  unfold apply_rules, ni_eu_rules, chain_rules, addend.
  split_line ln; destruct k; reflexivity.
Qed.

Ltac unfold_rows :=
  unfold row_sales_standard, row_purchase_reclaim, row_sales_zero,
    row_ni_eu_sales, row_ni_eu_other.

Ltac unfold_rules :=
  unfold apply_rules, ni_eu_rules, chain_rules, sales_standard, purchase_reclaim,
    sales_zero, ni_eu_sales, ni_eu_other.

(** Splits a line on its source type and its code, keeping the equations. *)
Ltac split_fields ln :=
  destruct ln as [sh st dt rf sp ds n v g code src rw];
  cbn [source_type vat_code net vat code_is] in *;
  case_string src "sales";
  [ | case_string src "purchases"; [ | case_string src "unknown" ] ];
  (destruct code as [c | ]; cbn [code_is];
   [ case_string c "T20";
     [ | case_string c "REDUCED";
         [ | case_string c "T0";
             [ | case_string c "NI"; [ | case_string c "EU" ] ] ] ]
   | ]).

Ltac row_contradiction :=
  exfalso;
  repeat match goal with
         | H : _ /\ _ |- _ => destruct H
         | H : _ \/ _ |- _ => destruct H
         end;
  congruence.

Lemma rows_decide_rules (b : Boxes) (ln : Line) :
  (row_sales_standard ln -> apply_rules b ln = plus_1_6 b (vat ln) (net ln))
  /\ (row_purchase_reclaim ln -> apply_rules b ln = plus_4_7 b (vat ln) (net ln))
  /\ (row_sales_zero ln -> apply_rules b ln = plus_6 b (net ln))
  /\ (row_ni_eu_sales ln -> apply_rules b ln = plus_8 b (net ln))
  /\ (row_ni_eu_other ln -> apply_rules b ln = plus_9 b (net ln))
  /\ (~ row_sales_standard ln -> ~ row_purchase_reclaim ln -> ~ row_sales_zero ln ->
      ~ row_ni_eu_sales ln -> ~ row_ni_eu_other ln -> apply_rules b ln = b).
Proof.
  unfold_rows. unfold_rules. unfold plus_1_6, plus_4_7, plus_6, plus_8, plus_9.
  split_fields ln; destruct b; cbn;
    (split; [intros ?; first [reflexivity | row_contradiction] |]);
    (split; [intros ?; first [reflexivity | row_contradiction] |]);
    (split; [intros ?; first [reflexivity | row_contradiction] |]);
    (split; [intros ?; first [reflexivity | row_contradiction] |]);
    (split; [intros ?; first [reflexivity | row_contradiction] |]);
    intros H1 H2 H3 H4 H5;
    first [ reflexivity
          | exfalso;
            first [ apply H1; solve [intuition congruence]
                  | apply H2; solve [intuition congruence]
                  | apply H3; solve [intuition congruence]
                  | apply H4; solve [intuition congruence]
                  | apply H5; solve [intuition congruence] ] ].
Qed.

Lemma rows_exclusive (ln : Line) :
  ~ (row_sales_standard ln /\ row_purchase_reclaim ln)
  /\ ~ (row_sales_standard ln /\ row_sales_zero ln)
  /\ ~ (row_purchase_reclaim ln /\ row_sales_zero ln)
  /\ ~ (row_ni_eu_sales ln /\ row_ni_eu_other ln)
  /\ ~ ((row_sales_standard ln \/ row_purchase_reclaim ln \/ row_sales_zero ln)
        /\ (row_ni_eu_sales ln \/ row_ni_eu_other ln)).
Proof.
  unfold_rows. destruct ln; cbn [source_type vat_code].
  repeat split; intros H; row_contradiction.
Qed.

(** C4 (as the code has it): a line meets at most one row of the rule
    table, and the row it meets decides what it does to the boxes of its
    show. A sale at T20 adds its vat to box 1 and its net to box 6; a line
    of source purchases or unknown at T20 or REDUCED adds its vat to box 4
    and its net to box 7; a sale at T0 adds its net to box 6; a sale at NI
    or EU adds its net to box 8; a line at NI or EU that is no sale adds its
    net to box 9; every other box stays as it was, and a line that meets no
    row changes nothing. The rows for box 8 and box 9 stand after the chain
    as conditions of their own, but their codes are not those of the chain,
    so no line meets a chained row and an NI/EU row together. A sales line
    with code EU and net 50 adds 50 to box 8 and leaves box 6 as it was. *)
Theorem rule_table (b : Boxes) (ln : Line) :
  (row_sales_standard ln -> apply_rules b ln = plus_1_6 b (vat ln) (net ln))
  /\ (row_purchase_reclaim ln -> apply_rules b ln = plus_4_7 b (vat ln) (net ln))
  /\ (row_sales_zero ln -> apply_rules b ln = plus_6 b (net ln))
  /\ (row_ni_eu_sales ln -> apply_rules b ln = plus_8 b (net ln))
  /\ (row_ni_eu_other ln -> apply_rules b ln = plus_9 b (net ln))
  /\ (~ row_sales_standard ln -> ~ row_purchase_reclaim ln -> ~ row_sales_zero ln ->
      ~ row_ni_eu_sales ln -> ~ row_ni_eu_other ln -> apply_rules b ln = b)
  /\ (~ (row_sales_standard ln /\ row_purchase_reclaim ln)
      /\ ~ (row_sales_standard ln /\ row_sales_zero ln)
      /\ ~ (row_purchase_reclaim ln /\ row_sales_zero ln)
      /\ ~ (row_ni_eu_sales ln /\ row_ni_eu_other ln)
      /\ ~ ((row_sales_standard ln \/ row_purchase_reclaim ln \/ row_sales_zero ln)
            /\ (row_ni_eu_sales ln \/ row_ni_eu_other ln)))
  /\ apply_rules b ln = ni_eu_rules (chain_rules b ln) ln
  /\ (box8 (chain_rules b ln) = box8 b /\ box9 (chain_rules b ln) = box9 b)
  /\ (source_type ln = "sales" -> vat_code ln = Some "EU" -> net ln = 50%float ->
      apply_rules b ln = plus_8 b 50
      /\ box8 (apply_rules b ln) = (box8 b + 50)%float
      /\ box6 (apply_rules b ln) = box6 b).
Proof.
  destruct (rows_decide_rules b ln) as (H1 & H2 & H3 & H4 & H5 & H6).
  repeat (split; [assumption|]).
  split; [apply rows_exclusive|]. split; [reflexivity|]. split.
  - unfold chain_rules.
    destruct (sales_standard ln), (purchase_reclaim ln), (sales_zero ln);
      destruct b; split; reflexivity.
  - intros Hs Hc Hn.
    assert (Hrow : row_ni_eu_sales ln) by (unfold row_ni_eu_sales; auto).
    rewrite (H4 Hrow), Hn. repeat split; reflexivity.
Qed.

Lemma rule_table_witness :
  apply_rules some_boxes reduced_purchase = plus_4_7 some_boxes 10 200
  /\ (apply_rules init_acc eu_sale = plus_8 init_acc 50
      /\ box8 (apply_rules init_acc eu_sale) = (box8 init_acc + 50)%float
      /\ box6 (apply_rules init_acc eu_sale) = box6 init_acc).
Proof.
  split.
  - destruct (rule_table some_boxes reduced_purchase) as (_ & H & _).
    apply H. unfold row_purchase_reclaim. split; [left | right]; reflexivity.
  - destruct (rule_table init_acc eu_sale) as (_ & _ & _ & _ & _ & _ & _ & _ & _ & H).
    apply H; reflexivity.
Defined.

(** C4 (as the specification states it): the NI/EU rules never fire in
    addition to one of the three chained rules. No line meets a chained row
    and an NI/EU row together, and no line changes box 8 or box 9 and also
    one of the boxes 1, 4, 6 and 7, whatever the boxes were before. *)
Lemma ni_eu_never_on_top_of_chain :
  (~ exists ln,
       (row_sales_standard ln \/ row_purchase_reclaim ln \/ row_sales_zero ln)
       /\ (row_ni_eu_sales ln \/ row_ni_eu_other ln))
  /\ (~ exists b ln,
        (box8 (apply_rules b ln) <> box8 b \/ box9 (apply_rules b ln) <> box9 b)
        /\ (box1 (apply_rules b ln) <> box1 b \/ box4 (apply_rules b ln) <> box4 b
            \/ box6 (apply_rules b ln) <> box6 b \/ box7 (apply_rules b ln) <> box7 b)).
Proof.
  split.
  - intros [ln H]. now apply (rows_exclusive ln).
  - intros [b [ln H]]. revert H. unfold_rules.
    split_fields ln; destruct b; cbn; intros H; row_contradiction.
Qed.

(** ** Consolidated totals *)

Lemma add_group_box (c : Boxes) (acc : ShowAcc) (k : box_key) :
  get_box k (add_group c acc) = (get_box k c + get_box k (boxes acc))%float.
Proof. destruct k; reflexivity. Qed.

Lemma fold_add_group_box (accs : list ShowAcc) (c : Boxes) (k : box_key) :
  get_box k (fold_left add_group accs c)
  = fold_left PrimFloat.add (map (fun acc => get_box k (boxes acc)) accs) (get_box k c).
Proof.
  revert c; induction accs as [|acc accs IH]; intros c; [reflexivity|].
  cbn [fold_left map]. now rewrite IH, add_group_box.
Qed.

Lemma consolidated_box_sum (lns : list Line) (k : box_key) :
  get_box k (consolidated (assign_boxes lns))
  = fsum (group_totals (assign_boxes lns) k).
Proof.
  unfold assign_boxes, group_totals, fsum. cbn [consolidated per_show].
  rewrite fold_add_group_box, map_map. destruct k; reflexivity.
Qed.

(** ** Column resolution *)

Lemma find_app {A : Type} (p : A -> bool) (l1 l2 : list A) :
  find p (l1 ++ l2)%list
  = match find p l1 with Some x => Some x | None => find p l2 end.
Proof.
  induction l1 as [|a l1 IH]; simpl; [reflexivity|].
  now destruct (p a).
Qed.

Lemma first_equal_app (w : string) (d1 d2 : Dict.t string) :
  first_equal w (d1 ++ d2)%list
  = match first_equal w d1 with Some c => Some c | None => first_equal w d2 end.
Proof.
  induction d1 as [|[c lc] d1 IH]; simpl; [reflexivity|].
  now destruct (String.eqb w lc).
Qed.

Lemma dict_set_new {V : Type} (k : string) (v : V) (d : Dict.t V) :
  Dict.get k d = None -> Dict.set k v d = (d ++ [(k, v)])%list.
Proof.
  induction d as [|[k' v'] d IH]; simpl; [reflexivity|].
  destruct (String.eqb k' k); [discriminate|]. intros H. now rewrite IH.
Qed.

Lemma dict_set_same (c : string) (d : Dict.t string) (v : string) :
  normal_entries d -> Dict.get c d = Some v ->
  Dict.set c (norm_header c) d = d /\ v = norm_header c.
Proof.
  unfold normal_entries.
  induction d as [|[k' v'] d IH]; simpl; [discriminate|].
  intros Hwf Hget. inversion Hwf as [|? ? Hhead Htail]; subst. cbn in Hhead.
  destruct (String.eqb_spec k' c) as [-> | Hne].
  - injection Hget as <-. now rewrite Hhead.
  - destruct (IH Htail Hget) as [-> ->]. now split.
Qed.

Lemma first_equal_none (w : string) (d : Dict.t string) (c v : string) :
  first_equal w d = None -> Dict.get c d = Some v -> String.eqb w v = false.
Proof.
  induction d as [|[k' v'] d IH]; simpl; [discriminate|].
  destruct (String.eqb w v') eqn:Hw; [discriminate|].
  destruct (String.eqb k' c); [intros _ [= <-]; exact Hw | exact IH].
Qed.

Lemma first_equal_header_table (w : string) (columns : list string) (d : Dict.t string) :
  normal_entries d ->
  first_equal w (fold_left (fun d c => Dict.set c (norm_header c) d) columns d)
  = match first_equal w d with
    | Some c => Some c
    | None => find (fun c => String.eqb w (norm_header c)) columns
    end.
Proof.
  revert d; induction columns as [|c columns IH]; intros d Hwf; cbn [fold_left find].
  - now destruct (first_equal w d).
  - destruct (Dict.get c d) as [v|] eqn:Hget.
    + destruct (dict_set_same c d v Hwf Hget) as [Hset ->].
      rewrite Hset, (IH d Hwf).
      destruct (first_equal w d) eqn:Hfe; [reflexivity|].
      now rewrite (first_equal_none w d c _ Hfe Hget).
    + rewrite (dict_set_new _ _ _ Hget), IH, first_equal_app.
      * destruct (first_equal w d); [reflexivity|]. cbn [first_equal].
        now destruct (String.eqb w (norm_header c)).
      * apply Forall_app. split; [exact Hwf|]. now constructor.
Qed.

Lemma find_pairs (p : string * string -> bool) (want : string) (columns : list string) :
  find p (map (fun c => (want, c)) columns)
  = option_map (fun c => (want, c)) (find (fun c => p (want, c)) columns).
Proof.
  induction columns as [|c columns IH]; simpl; [reflexivity|].
  now destruct (p (want, c)).
Qed.

Lemma exact_pass_spec (keys columns : list string) :
  exact_pass keys (header_table columns)
  = option_map snd (find exact_pair (list_prod keys columns)).
Proof.
  induction keys as [|want keys IH]; cbn [exact_pass list_prod]; [reflexivity|].
  unfold header_table at 1.
  rewrite first_equal_header_table by constructor. cbn [first_equal].
  rewrite find_app, find_pairs. unfold exact_pair at 1. cbn [fst snd].
  destruct (find _ columns); [reflexivity | exact IH].
Qed.

Lemma first_containing_find (w : string) (columns : list string) :
  first_containing w columns
  = find (fun c => PyStr.contains w (PyStr.lower c)) columns.
Proof.
  induction columns as [|c columns IH]; simpl; [reflexivity|].
  now rewrite IH.
Qed.

Lemma fuzzy_pass_spec (keys columns : list string) :
  fuzzy_pass keys columns
  = option_map snd (find containing_pair (list_prod keys columns)).
Proof.
  induction keys as [|want keys IH]; cbn [fuzzy_pass list_prod]; [reflexivity|].
  rewrite first_containing_find, find_app, find_pairs.
  unfold containing_pair at 1. cbn [fst snd].
  destruct (find _ columns); [reflexivity | exact IH].
Qed.

Lemma find_col_refines (columns keys : list string) :
  _find_col columns keys = find_col_spec columns keys.
Proof.
  unfold _find_col, find_col_spec.
  rewrite exact_pass_spec, fuzzy_pass_spec.
  now destruct (find exact_pair (list_prod keys columns)).
Qed.

Lemma lstrip_collapse (in_run : bool) (s : string) :
  PyStr.lstrip (PyStr.collapse_ws_from in_run s)
  = PyStr.collapse_ws_from false (PyStr.lstrip s).
Proof.
  revert in_run; induction s as [|c s IH]; intros in_run; [reflexivity|].
  cbn [PyStr.collapse_ws_from PyStr.lstrip].
  destruct (PyStr.isspace c) eqn:Hc.
  - destruct in_run; [apply IH|].
    cbn [PyStr.lstrip]. change (PyStr.isspace " ") with true. apply IH.
  - cbn [PyStr.lstrip PyStr.collapse_ws_from]. now rewrite Hc.
Qed.

Lemma collapse_in_run (s : string) :
  PyStr.collapse_ws_from true s = PyStr.collapse_ws_from false (PyStr.lstrip s).
Proof.
  induction s as [|c s IH]; [reflexivity|].
  cbn [PyStr.collapse_ws_from PyStr.lstrip].
  destruct (PyStr.isspace c) eqn:Hc; [exact IH|].
  cbn [PyStr.collapse_ws_from]. now rewrite Hc.
Qed.

Lemma rstrip_cons_kept (c : ascii) (s : string) :
  PyStr.isspace c = false ->
  PyStr.rstrip (String c s) = String c (PyStr.rstrip s).
Proof.
  intros Hc. cbn [PyStr.rstrip]. rewrite Hc. now destruct (PyStr.rstrip s).
Qed.

Lemma words_aux_nonempty (s : string) :
  Forall (fun w => w <> "") (snd (words_aux s)).
Proof.
  induction s as [|c s IH]; [constructor|].
  cbn [words_aux]. destruct (words_aux s) as [w ws]. cbn [snd] in IH.
  destruct (PyStr.isspace c); cbn [snd]; [|exact IH].
  destruct w; cbn [cons_word]; [exact IH|]. constructor; [discriminate | exact IH].
Qed.

Lemma join_blank_cons_word (w : string) (ws : list string) :
  Forall (fun x => x <> "") ws ->
  join_blank (cons_word w ws) = match w with
                                | EmptyString => join_blank ws
                                | String _ _ => w ++ blank_before_each ws
                                end.
Proof. now destruct w. Qed.

(** What is left of the collapsed text once the spaces at its end are
    dropped, without and within a run of spaces. *)
Lemma rstrip_collapse (s : string) :
  PyStr.rstrip (PyStr.collapse_ws_from false s)
  = fst (words_aux s) ++ blank_before_each (snd (words_aux s))
  /\ PyStr.rstrip (PyStr.collapse_ws_from true s) = join_blank (words s).
Proof.
  unfold words. induction s as [|c s [IHf IHt]]; [split; reflexivity|].
  pose proof (words_aux_nonempty s) as Hne.
  cbn [words_aux PyStr.collapse_ws_from].
  destruct (words_aux s) as [w ws]. cbn [fst snd] in *.
  destruct (PyStr.isspace c) eqn:Hc; cbn [fst snd].
  - split.
    + cbn [PyStr.rstrip]. rewrite IHt. change (PyStr.isspace " ") with true.
      destruct w as [|a w]; cbn [cons_word].
      * destruct ws as [|x xs]; [reflexivity|].
        inversion Hne as [|? ? Hx _]; subst. cbn [join_blank blank_before_each].
        destruct x; [congruence | reflexivity].
      * reflexivity.
    + rewrite IHt. now destruct w.
  - rewrite !rstrip_cons_kept by exact Hc. rewrite IHf. split; reflexivity.
Qed.

(** The header as the first pass compares it is its words, lower-cased,
    with one blank between two of them. *)
Lemma norm_header_by_words (c : string) :
  norm_header c = PyStr.lower (join_blank (words c)).
Proof.
  unfold norm_header, PyStr.strip, PyStr.collapse_ws. f_equal.
  rewrite lstrip_collapse, <- collapse_in_run. apply rstrip_collapse.
Qed.

Lemma exact_pair_by_words (p : string * string) :
  exact_pair p = equal_by_words p.
Proof. unfold exact_pair, equal_by_words. now rewrite norm_header_by_words. Qed.

Lemma find_agree {A : Type} (p q : A -> bool) (l : list A) :
  (forall x, p x = q x) -> find p l = find q l.
Proof.
  intros H. induction l as [|a l IH]; [reflexivity|]. cbn. now rewrite H, IH.
Qed.

Lemma find_col_by_words_refines (columns keys : list string) :
  _find_col columns keys = find_col_by_words columns keys.
Proof.
  rewrite find_col_refines. unfold find_col_spec, find_col_by_words.
  now rewrite (find_agree exact_pair equal_by_words _ exact_pair_by_words).
Qed.

(** C9: the resolver returns the header of the first pair (candidate,
    header), candidates in listed order and headers in column order, in
    which the header equals the candidate once letter case is ignored, every
    run of spaces in the header counts as one blank and the spaces at the
    ends of the header are dropped; only when there is no such pair, the
    header of the first pair in which the lower-cased header contains the
    lower-cased candidate; and nothing when there is neither. So when some
    header equals some candidate, the header returned is an exact match,
    also when a containing header comes earlier: "Amount" wins over "Net
    Amount", and a header written "vat", tab, blanks, "CODE" wins over "My
    VAT Code". *)
Theorem find_col_precedence (columns keys : list string) :
  _find_col columns keys = find_col_by_words columns keys
  /\ (forall want c,
        In want keys -> In c columns -> equal_by_words (want, c) = true ->
        exists want' c',
          _find_col columns keys = Some c'
          /\ In want' keys /\ In c' columns /\ equal_by_words (want', c') = true
          /\ find equal_by_words (list_prod keys columns) = Some (want', c'))
  /\ ((forall want c, In want keys -> In c columns -> equal_by_words (want, c) = false) ->
      _find_col columns keys
      = option_map snd (find containing_pair (list_prod keys columns)))
  /\ ((forall want c, In want keys -> In c columns ->
         equal_by_words (want, c) = false /\ containing_pair (want, c) = false) ->
      _find_col columns keys = None)
  /\ (forall want c,
        (equal_by_words (want, c) = true
         <-> PyStr.lower want = PyStr.lower (join_blank (words c)))
        /\ (containing_pair (want, c) = true
            <-> is_substring (PyStr.lower want) (PyStr.lower c)))
  /\ (_find_col ["Net Amount"; "Amount"] ["amount"] = Some "Amount"
      /\ containing_pair ("amount", "Net Amount") = true
      /\ equal_by_words ("amount", "Net Amount") = false)
  /\ (_find_col ["My VAT Code"; String "009" " vat" ++ String "009" "   CODE  "]
        ["Vat Code"]
      = Some (String "009" " vat" ++ String "009" "   CODE  ")
      /\ containing_pair ("Vat Code", "My VAT Code") = true
      /\ words (String "009" " vat" ++ String "009" "   CODE  ") = ["vat"; "CODE"]
      /\ join_blank ["vat"; "CODE"] = "vat CODE").
Proof.
  rewrite find_col_by_words_refines. unfold find_col_by_words.
  split; [reflexivity|]. split; [|split; [|split; [|split; [|split]]]].
  - intros want c Hw Hc Hex.
    destruct (find equal_by_words (list_prod keys columns)) as [[want' c']|] eqn:Hf.
    + apply find_some in Hf as Hf'. destruct Hf' as [Hin Hp].
      apply in_prod_iff in Hin as [Hw' Hc'].
      exists want', c'. repeat split; trivial.
    + apply find_none with (x := (want, c)) in Hf; [congruence|].
      now apply in_prod.
  - intros Hno.
    destruct (find equal_by_words (list_prod keys columns)) as [[want c]|] eqn:Hf;
      [|reflexivity].
    apply find_some in Hf as [Hin Hp]. apply in_prod_iff in Hin as [Hw Hc].
    now rewrite (Hno want c Hw Hc) in Hp.
  - intros Hno.
    destruct (find equal_by_words (list_prod keys columns)) as [[want c]|] eqn:Hf.
    + apply find_some in Hf as [Hin Hp]. apply in_prod_iff in Hin as [Hw Hc].
      destruct (Hno want c Hw Hc) as [He _]. now rewrite He in Hp.
    + destruct (find containing_pair (list_prod keys columns)) as [[want c]|] eqn:Hg;
        [|reflexivity].
      apply find_some in Hg as [Hin Hp]. apply in_prod_iff in Hin as [Hw Hc].
      destruct (Hno want c Hw Hc) as [_ He]. now rewrite He in Hp.
  - intros want c. split.
    + unfold equal_by_words. cbn [fst snd]. apply String.eqb_eq.
    + unfold containing_pair. cbn [fst snd]. apply contains_iff.
  - repeat split; reflexivity.
  - repeat split; reflexivity.
Qed.

Lemma find_col_precedence_witness :
  exists want' c',
    _find_col ["Net Amount"; "Amount"] ["amount"] = Some c'
    /\ In want' ["amount"] /\ In c' ["Net Amount"; "Amount"]
    /\ equal_by_words (want', c') = true
    /\ find equal_by_words (list_prod ["amount"] ["Net Amount"; "Amount"])
       = Some (want', c').
Proof.
  destruct (find_col_precedence ["Net Amount"; "Amount"] ["amount"]) as (_ & H & _).
  apply (H "amount" "Amount").
  - left. reflexivity.
  - right. left. reflexivity.
  - reflexivity.
Defined.

(** ** Groups *)

Lemma get_setdefault_update (name k : string) (fresh : ShowAcc)
    (f : ShowAcc -> ShowAcc) (d : Dict.t ShowAcc) :
  Dict.get name (setdefault_update k fresh f d)
  = if String.eqb k name
    then Some (f (match Dict.get k d with Some acc => acc | None => fresh end))
    else Dict.get name d.
Proof.
  induction d as [|[k' acc] d IH]; cbn [setdefault_update Dict.get].
  - now destruct (String.eqb k name).
  - destruct (String.eqb_spec k' k) as [-> | Hne]; cbn [Dict.get].
    + now destruct (String.eqb k name).
    + rewrite IH. destruct (String.eqb_spec k name) as [<- | Hkn].
      * destruct (String.eqb_spec k' k); [contradiction | reflexivity].
      * reflexivity.
Qed.

Lemma keys_setdefault_update (k : string) (fresh : ShowAcc)
    (f : ShowAcc -> ShowAcc) (d : Dict.t ShowAcc) :
  Dict.keys (setdefault_update k fresh f d)
  = if existsb (fun y => String.eqb y k) (Dict.keys d)
    then Dict.keys d
    else (Dict.keys d ++ [k])%list.
Proof.
  unfold Dict.keys.
  induction d as [|[k' acc] d IH]; cbn [setdefault_update map existsb fst]; [reflexivity|].
  destruct (String.eqb k' k); cbn [map fst orb]; [reflexivity|].
  rewrite IH. now destruct (existsb _ _).
Qed.

Lemma filter_idem_neq (x : string) (l : list string) :
  existsb (fun y => String.eqb y x) (filter (fun y => negb (String.eqb y x)) l) = false.
Proof.
  induction l as [|a l IH]; simpl; [reflexivity|].
  destruct (String.eqb a x) eqn:Ha; simpl; [exact IH|]. now rewrite Ha.
Qed.

Lemma existsb_filter_neq (x a : string) (l : list string) :
  String.eqb a x = false ->
  existsb (fun y => String.eqb y x) (filter (fun y => negb (String.eqb y a)) l)
  = existsb (fun y => String.eqb y x) l.
Proof.
  intros Hax. induction l as [|b l IH]; simpl; [reflexivity|].
  destruct (String.eqb_spec b a) as [-> | Hba]; simpl.
  - now rewrite Hax.
  - now rewrite IH.
Qed.

Lemma existsb_first_seen (x : string) (l : list string) :
  existsb (fun y => String.eqb y x) (first_seen l)
  = existsb (fun y => String.eqb y x) l.
Proof.
  induction l as [|a l IH]; simpl; [reflexivity|].
  destruct (String.eqb a x) eqn:Hax; simpl; [reflexivity|].
  now rewrite existsb_filter_neq.
Qed.

Lemma first_seen_snoc (l : list string) (x : string) :
  first_seen (l ++ [x])
  = if existsb (fun y => String.eqb y x) l
    then first_seen l
    else (first_seen l ++ [x])%list.
Proof.
  induction l as [|a l IH]; cbn [first_seen app existsb filter]; [reflexivity|].
  rewrite IH. destruct (String.eqb_spec a x) as [-> | Hax]; cbn [orb].
  - destruct (existsb _ l); [reflexivity|].
    rewrite filter_app. cbn [filter]. rewrite String.eqb_refl. cbn [negb].
    now rewrite app_nil_r.
  - destruct (existsb _ l); [reflexivity|].
    rewrite filter_app. cbn [filter].
    destruct (String.eqb_spec x a) as [-> | _]; [contradiction|reflexivity].
Qed.

(** The groups are the shows of the lines, each at its first place. *)
Lemma per_show_keys (lns : list Line) :
  Dict.keys (fold_left aggregate_line lns []) = first_seen (map show lns).
Proof.
  induction lns as [|ln lns IH] using rev_ind; [reflexivity|].
  rewrite fold_left_app, map_app. cbn [fold_left map].
  unfold aggregate_line at 1.
  rewrite keys_setdefault_update, IH, first_seen_snoc, existsb_first_seen.
  reflexivity.
Qed.

Lemma get_aggregate (name : string) (lns : list Line) (d : Dict.t ShowAcc) :
  Dict.get name (fold_left aggregate_line lns d)
  = match Dict.get name d with
    | Some acc => Some (run_acc (lines_of name lns) acc)
    | None =>
        if has_show name lns
        then Some (run_acc (lines_of name lns) new_acc)
        else None
    end.
Proof.
  revert d; induction lns as [|ln lns IH]; intros d; cbn [fold_left].
  - now destruct (Dict.get name d).
  - rewrite IH. unfold aggregate_line at 1. rewrite get_setdefault_update.
    unfold lines_of, has_show. cbn [filter existsb].
    destruct (String.eqb_spec (show ln) name) as [<- | Hne]; cbn [orb].
    + now destruct (Dict.get (show ln) d).
    + reflexivity.
Qed.

Lemma run_acc_boxes (lns : list Line) (acc : ShowAcc) :
  boxes (run_acc lns acc) = fold_left apply_rules lns (boxes acc).
Proof.
  revert acc; induction lns as [|ln lns IH]; intros acc; [reflexivity|].
  unfold run_acc in *. cbn [fold_left]. now rewrite IH.
Qed.

Lemma run_acc_lines (lns : list Line) (acc : ShowAcc) :
  lines (run_acc lns acc) = (lines acc ++ lns)%list.
Proof.
  revert acc; induction lns as [|ln lns IH]; intros acc.
  - cbn. now rewrite app_nil_r.
  - unfold run_acc in *. cbn [fold_left]. rewrite IH. cbn [acc_step lines].
    now rewrite <- app_assoc.
Qed.

Lemma fold_rules_box (lns : list Line) (b : Boxes) (k : box_key) :
  get_box k (fold_left apply_rules lns b)
  = fold_left PrimFloat.add (addends k lns) (get_box k b).
Proof.
  revert b; induction lns as [|ln lns IH]; intros b; [reflexivity|].
  cbn [fold_left]. rewrite IH, apply_rules_box. unfold addends. cbn [filter_map].
  now destruct (addend k ln).
Qed.

(** The total of a box of a group is the sum, from the left, of what the
    lines of that show add to the box. *)
Lemma group_total_is_sum (lns : list Line) (name : string) (k : box_key) :
  group_total (assign_boxes lns) name k
  = if has_show name lns
    then Some (fsum (addends k (lines_of name lns)))
    else None.
Proof.
  unfold group_total, show_boxes, assign_boxes. cbn [per_show].
  rewrite get_aggregate. cbn [Dict.get].
  destruct (has_show name lns); [|reflexivity].
  cbn [option_map]. rewrite run_acc_boxes, fold_rules_box.
  unfold fsum. now destruct k.
Qed.

Lemma group_lines (lns : list Line) (name : string) :
  option_map lines (Dict.get name (per_show (assign_boxes lns)))
  = if has_show name lns then Some (lines_of name lns) else None.
Proof.
  unfold assign_boxes. cbn [per_show]. rewrite get_aggregate. cbn [Dict.get].
  destruct (has_show name lns); [|reflexivity].
  cbn [option_map]. now rewrite run_acc_lines.
Qed.

(** ** Reordering the lines *)

Lemma Permutation_filter_pred {A : Type} (p : A -> bool) (l l' : list A) :
  Permutation l l' -> Permutation (filter p l) (filter p l').
Proof.
  induction 1 as [| x l l' _ IH | x y l | l l' l'' _ IH1 _ IH2]; simpl.
  - constructor.
  - destruct (p x); [now constructor | exact IH].
  - destruct (p x), (p y); try reflexivity. constructor.
  - now transitivity (filter p l').
Qed.

Lemma Permutation_filter_map {A B : Type} (f : A -> option B) (l l' : list A) :
  Permutation l l' -> Permutation (filter_map f l) (filter_map f l').
Proof.
  induction 1 as [| x l l' _ IH | x y l | l l' l'' _ IH1 _ IH2]; simpl.
  - constructor.
  - destruct (f x); [now constructor | exact IH].
  - destruct (f x), (f y); try reflexivity. constructor.
  - now transitivity (filter_map f l').
Qed.

Lemma Permutation_existsb {A : Type} (p : A -> bool) (l l' : list A) :
  Permutation l l' -> existsb p l = existsb p l'.
Proof.
  induction 1 as [| x l l' _ IH | x y l | l l' l'' _ IH1 _ IH2]; simpl.
  - reflexivity.
  - now rewrite IH.
  - now destruct (p x), (p y).
  - congruence.
Qed.

Lemma in_first_seen (x : string) (l : list string) :
  In x (first_seen l) <-> In x l.
Proof.
  assert (H : forall l0, In x l0 <-> existsb (fun y => String.eqb y x) l0 = true).
  { intros l0. rewrite existsb_exists. split.
    - intros Hin. exists x. split; [exact Hin | apply String.eqb_refl].
    - intros [y [Hin Hy]]. apply String.eqb_eq in Hy. now subst. }
  split; intros Hx.
  - apply H. rewrite <- existsb_first_seen. now apply H.
  - apply H. rewrite existsb_first_seen. now apply H.
Qed.

Lemma NoDup_filter_keep {A : Type} (p : A -> bool) (l : list A) :
  NoDup l -> NoDup (filter p l).
Proof.
  induction 1 as [|x l Hx _ IH]; simpl; [constructor|].
  destruct (p x); [|exact IH]. constructor; [|exact IH].
  intros Hin. apply filter_In in Hin. tauto.
Qed.

Lemma NoDup_first_seen (l : list string) : NoDup (first_seen l).
Proof.
  induction l as [|a l IH]; simpl; constructor.
  - intros Hin. apply filter_In in Hin as [_ Hne].
    now rewrite String.eqb_refl in Hne.
  - now apply NoDup_filter_keep.
Qed.

Lemma Permutation_first_seen (l l' : list string) :
  Permutation l l' -> Permutation (first_seen l) (first_seen l').
Proof.
  intros HP. apply NoDup_Permutation; try apply NoDup_first_seen.
  intros x. rewrite !in_first_seen. split; apply Permutation_in; [|symmetry]; exact HP.
Qed.

Lemma map_get_keys {V A : Type} (g : V -> A) (z : A) (d : Dict.t V) :
  NoDup (Dict.keys d) ->
  map (fun name => match Dict.get name d with Some a => g a | None => z end)
      (Dict.keys d)
  = map (fun entry => g (snd entry)) d.
Proof.
  unfold Dict.keys. induction d as [|[k a] d IH]; [reflexivity|].
  cbn [map fst snd Dict.get]. intros Hnd. inversion Hnd as [|? ? Hk Hd]; subst.
  rewrite String.eqb_refl. f_equal. rewrite <- (IH Hd).
  apply map_ext_in. intros name Hin.
  destruct (String.eqb_spec k name) as [-> | _]; [contradiction | reflexivity].
Qed.

(** C5: for every list of lines and every box, the consolidated total is
    the sum of the totals of that box over all groups: it starts from 0.0
    and adds, from the left, the total of each group in the order of the
    groups. *)
Theorem consolidated_is_sum_of_groups (lns : list Line) (k : box_key) :
  get_box k (consolidated (assign_boxes lns))
  = fsum (group_totals (assign_boxes lns) k)
  /\ group_totals (assign_boxes lns) k
     = map (fun name =>
              match group_total (assign_boxes lns) name k with
              | Some x => x
              | None => zero
              end)
           (Dict.keys (per_show (assign_boxes lns)))
  /\ Dict.keys (per_show (assign_boxes lns)) = first_seen (map show lns).
Proof.
  split; [apply consolidated_box_sum|]. split.
  - unfold group_totals, group_total, show_boxes.
    rewrite <- (map_get_keys (fun a => get_box k (boxes a)) zero).
    + apply map_ext. intros name. now destruct (Dict.get name _).
    + unfold assign_boxes; cbn [per_show]. rewrite per_show_keys.
      apply NoDup_first_seen.
  - unfold assign_boxes; cbn [per_show]. apply per_show_keys.
Qed.

Lemma on_sheet_addends (rename : Line -> string) (name : string) (k : box_key)
    (lns : list Line) :
  addends k (lines_of name (map (on_sheet rename) lns)) = addends k (lines_of name lns)
  /\ has_show name (map (on_sheet rename) lns) = has_show name lns.
Proof.
  unfold addends, lines_of, has_show.
  induction lns as [|ln lns [IH1 IH2]]; [split; reflexivity|].
  cbn [map filter existsb]. rewrite IH2. split; [|reflexivity].
  change (show (on_sheet rename ln)) with (show ln).
  destruct (String.eqb (show ln) name); [|exact IH1].
  cbn [filter_map]. rewrite IH1.
  replace (addend k (on_sheet rename ln)) with (addend k ln); [reflexivity|].
  now destruct k.
Qed.

(** C3 (as the specification states it): the totals do change with the
    order of the lines. Three standard-rated sales of one show with VAT 0.1,
    0.2 and 0.3 give box 1 the total 0.6000000000000001 in that order and
    0.6 in the reverse order, for the group and for the consolidated total. *)
Lemma reordered_tenths_differ :
  Permutation tenths tenths_reversed
  /\ group_total (assign_boxes tenths) "march" B1 = Some 0.6000000000000001%float
  /\ group_total (assign_boxes tenths_reversed) "march" B1 = Some 0.6%float
  /\ group_total (assign_boxes tenths) "march" B1
     <> group_total (assign_boxes tenths_reversed) "march" B1
  /\ get_box B1 (consolidated (assign_boxes tenths))
     <> get_box B1 (consolidated (assign_boxes tenths_reversed)).
Proof.
  split; [apply Permutation_rev|].
  split; [reflexivity|]. split; [reflexivity|]. split.
  - intros H.
    apply (f_equal (fun o => match o with
                             | Some x => PrimFloat.eqb x 0.6%float
                             | None => false
                             end)) in H.
    vm_compute in H. discriminate.
  - intros H. apply (f_equal (fun x => PrimFloat.eqb x 0.6%float)) in H.
    vm_compute in H. discriminate.
Qed.

(** * Further properties of the code *)

(** ** The normaliser *)

Lemma scan_table_value (table : Dict.t string) (text v : string) :
  scan_table table text = Some v -> In v (map snd table).
Proof.
  induction table as [|[k w] table IH]; simpl; [discriminate|].
  destruct (PyStr.contains k text); [intros [= ->]; now left | auto].
Qed.

Lemma dict_get_value {V : Type} (k : string) (d : Dict.t V) (v : V) :
  Dict.get k d = Some v -> In v (map snd d).
Proof.
  induction d as [|[k' w] d IH]; simpl; [discriminate|].
  destruct (String.eqb k' k); [intros [= ->]; now left | auto].
Qed.

Lemma lookup_tokens_value (tokens : list string) (v : string) :
  lookup_tokens tokens = Some v -> In v (map snd NORMALISE_MAP).
Proof.
  induction tokens as [|t tokens IH]; cbn [lookup_tokens]; [discriminate|].
  destruct (Dict.get t NORMALISE_MAP) as [w|] eqn:Hget; [|exact IH].
  intros [= ->]. now apply dict_get_value in Hget.
Qed.

Lemma table_values (v : string) :
  In v (map snd NORMALISE_MAP) -> In v canonical_tags.
Proof.
  cbn. intros H.
  repeat (destruct H as [<- | H]; [tauto|]). destruct H.
Qed.

Lemma regex_stage_value (s v : string) :
  regex_stage s = Some v -> In v (map snd NORMALISE_MAP).
Proof.
  unfold regex_stage. destruct (String.eqb s ""); [discriminate|].
  destruct (Re.search VAT_CODE_REGEX s); [apply scan_table_value | discriminate].
Qed.

Lemma token_stage_value (s v : string) :
  token_stage s = Some v -> In v (map snd NORMALISE_MAP).
Proof. apply lookup_tokens_value. Qed.

Lemma normalise_in_all_tags (val : cell) (description : string) :
  In (normalise_vat_code val description) all_tags.
Proof.
  unfold normalise_vat_code, description_stage, all_tags.
  destruct (regex_stage (code_token val)) as [v|] eqn:Hre.
  { apply in_or_app. left. now apply regex_stage_value, table_values in Hre. }
  destruct (token_stage (code_token val)) as [v|] eqn:Htok.
  { apply in_or_app. left. now apply token_stage_value, table_values in Htok. }
  destruct (scan_table NORMALISE_MAP (PyStr.lower description)) as [v|] eqn:Hd.
  - apply in_or_app. left. now apply scan_table_value, table_values in Hd.
  - apply in_or_app. right. now left.
Qed.

(** X1: whatever the code cell and the description, the normaliser returns
    one of the eight tags T20, T0, EXEMPT, OOS, REDUCED, NI, EU, UNKNOWN,
    and a tag other than UNKNOWN is the tag of an entry of the token
    table. *)
Theorem normalise_vat_code_range (val : cell) (description : string) :
  In (normalise_vat_code val description) all_tags
  /\ (normalise_vat_code val description = "UNKNOWN"
      \/ exists k, In (k, normalise_vat_code val description) NORMALISE_MAP).
Proof.
  split; [apply normalise_in_all_tags|].
  assert (Hv : forall v, In v (map snd NORMALISE_MAP) -> exists k, In (k, v) NORMALISE_MAP).
  { intros v H. apply in_map_iff in H as [[k w] [Hw Hin]]. cbn in Hw. subst w.
    now exists k. }
  unfold normalise_vat_code, description_stage.
  destruct (regex_stage (code_token val)) as [v|] eqn:Hre.
  { right. now apply Hv, regex_stage_value with (s := code_token val). }
  destruct (token_stage (code_token val)) as [v|] eqn:Htok.
  { right. now apply Hv, token_stage_value with (s := code_token val). }
  destruct (scan_table NORMALISE_MAP (PyStr.lower description)) as [v|] eqn:Hd.
  - right. now apply Hv, scan_table_value with (text := PyStr.lower description).
  - now left.
Qed.

Lemma table_value_not_unknown (v : string) :
  In v (map snd NORMALISE_MAP) -> v <> "UNKNOWN".
Proof.
  intros H. apply table_values in H. cbn in H.
  repeat (destruct H as [<- | H]; [discriminate|]). destruct H.
Qed.

(** X2: the normaliser answers UNKNOWN only when neither stage resolves
    the code token and no key of the token table occurs in the lower-cased
    description; in particular the description then holds none of the
    characters e, z, 0 and 5, all of them keys. *)
Theorem unknown_only_without_any_key (val : cell) (description : string) :
  normalise_vat_code val description = "UNKNOWN" ->
  regex_stage (code_token val) = None
  /\ token_stage (code_token val) = None
  /\ no_key_in NORMALISE_MAP (PyStr.lower description)
  /\ forall c, In c ["e"; "z"; "0"; "5"] ->
               PyStr.contains c (PyStr.lower description) = false.
Proof.
  unfold normalise_vat_code, description_stage. intros H.
  destruct (regex_stage (code_token val)) as [v|] eqn:Hre.
  { subst v. now apply regex_stage_value, table_value_not_unknown in Hre. }
  destruct (token_stage (code_token val)) as [v|] eqn:Htok.
  { subst v. now apply token_stage_value, table_value_not_unknown in Htok. }
  destruct (scan_table NORMALISE_MAP (PyStr.lower description)) as [v|] eqn:Hd.
  { subst v. now apply scan_table_value, table_value_not_unknown in Hd. }
  apply scan_table_none in Hd. repeat split; trivial.
  intros c Hc. apply contains_false_iff. cbn in Hc.
  destruct Hc as [<- | [<- | [<- | [<- | []]]]].
  - apply (Hd "e" "EXEMPT"). cbn. tauto.
  - apply (Hd "z" "T0"). cbn. tauto.
  - apply (Hd "0" "T0"). cbn. tauto.
  - apply (Hd "5" "REDUCED"). cbn. tauto.
Qed.

Lemma unknown_only_without_any_key_witness :
  regex_stage (code_token (CStr "??")) = None
  /\ token_stage (code_token (CStr "??")) = None
  /\ no_key_in NORMALISE_MAP (PyStr.lower "BUY IN N.I.")
  /\ forall c, In c ["e"; "z"; "0"; "5"] ->
               PyStr.contains c (PyStr.lower "BUY IN N.I.") = false.
Proof.
  apply (unknown_only_without_any_key (CStr "??") "BUY IN N.I."). reflexivity.
Defined.

Lemma contains_prefix (a b text : string) :
  PyStr.contains (a ++ b) text = true -> PyStr.contains a text = true.
Proof.
  rewrite !contains_iff. intros [pre [post ->]].
  exists pre, (b ++ post).
  f_equal. clear. induction a as [|c a IH]; [reflexivity|]. cbn. now rewrite IH.
Qed.

(** The table scan never answers EU: each of the keys eu, ec and eec
    starts with the key e, which stands before them. *)
Lemma scan_table_never_eu (text : string) :
  scan_table NORMALISE_MAP text <> Some "EU".
Proof.
  destruct (PyStr.contains "e" text) eqn:He.
  - unfold NORMALISE_MAP. cbn [scan_table]. rewrite He.
    repeat match goal with
           | |- context [if ?c then _ else _] => destruct c
           end; discriminate.
  - assert (Heu : PyStr.contains "eu" text = false).
    { destruct (PyStr.contains "eu" text) eqn:H; [|reflexivity].
      apply (contains_prefix "e" "u") in H. congruence. }
    assert (Hec : PyStr.contains "ec" text = false).
    { destruct (PyStr.contains "ec" text) eqn:H; [|reflexivity].
      apply (contains_prefix "e" "c") in H. congruence. }
    assert (Heec : PyStr.contains "eec" text = false).
    { destruct (PyStr.contains "eec" text) eqn:H; [|reflexivity].
      apply (contains_prefix "e" "ec") in H. congruence. }
    unfold NORMALISE_MAP. cbn [scan_table]. rewrite He, Heu, Hec, Heec.
    repeat match goal with
           | |- context [if ?c then _ else _] => destruct c
           end; discriminate.
Qed.

(** X3: the tag EU comes from the direct tokens only: when the normaliser
    returns EU, the regex stage has returned nothing and the token stage
    has found EU, so one of the pieces of the code token is eu, ec or eec;
    a description never yields EU, whatever it says. *)
Theorem eu_only_from_a_code_token (val : cell) (description : string) :
  normalise_vat_code val description = "EU" ->
  regex_stage (code_token val) = None
  /\ token_stage (code_token val) = Some "EU"
  /\ (exists t, In t (Re.split_tokens (code_token val))
                /\ In t ["eu"; "ec"; "eec"])
  /\ forall other, normalise_vat_code val other = "EU".
Proof.
  unfold normalise_vat_code, description_stage. intros H.
  assert (Hre : regex_stage (code_token val) = None).
  { destruct (regex_stage (code_token val)) as [v|] eqn:Hre; [|reflexivity].
    subst v. exfalso. unfold regex_stage in Hre.
    destruct (String.eqb (code_token val) ""); [discriminate|].
    destruct (Re.search VAT_CODE_REGEX (code_token val)); [|discriminate].
    now apply scan_table_never_eu in Hre. }
  rewrite Hre in H.
  assert (Htok : token_stage (code_token val) = Some "EU").
  { destruct (token_stage (code_token val)) as [v|] eqn:Htok; [now subst|].
    exfalso.
    destruct (scan_table NORMALISE_MAP (PyStr.lower description)) as [v|] eqn:Hd;
      [|discriminate].
    subst v. now apply scan_table_never_eu in Hd. }
  split; [exact Hre|]. split; [exact Htok|]. split.
  - unfold token_stage in Htok.
    destruct (String.eqb (code_token val) ""); [discriminate|].
    induction (Re.split_tokens (code_token val)) as [|t ts IH];
      cbn [lookup_tokens] in Htok; [discriminate|].
    destruct (Dict.get t NORMALISE_MAP) as [w|] eqn:Hget.
    + injection Htok as ->. exists t. split; [now left|].
      unfold NORMALISE_MAP in Hget. cbn [Dict.get] in Hget.
      repeat match type of Hget with
             | (if String.eqb ?k t then _ else _) = _ =>
                 destruct (String.eqb_spec k t) as [<- | _];
                   [first [discriminate | cbn; tauto] |]
             end.
      discriminate.
    + destruct (IH Htok) as [t' [Hin Ht']]. exists t'. split; [now right | exact Ht'].
  - intros other. now rewrite Hre, Htok.
Qed.

Lemma eu_only_from_a_code_token_witness :
  token_stage (code_token (CStr "EEC / export")) = Some "EU"
  /\ forall other, normalise_vat_code (CStr "EEC / export") other = "EU".
Proof.
  destruct (eu_only_from_a_code_token (CStr "EEC / export") "" eq_refl)
    as (_ & Htok & _ & Hall).
  split; [exact Htok | exact Hall].
Defined.

(** X4: given as the code with an empty description, every key of the
    token table normalises to its own tag, except four: eu, ec and
    northern ireland give EXEMPT (the regex matches and the scan of the
    match meets the key e first), and out of scope gives UNKNOWN (no
    stage resolves it). *)
Theorem table_keys_normalised (k v : string) :
  In (k, v) NORMALISE_MAP ->
  normalise_vat_code (CStr k) ""
  = if existsb (String.eqb k) ["eu"; "ec"; "northern ireland"] then "EXEMPT"
    else if String.eqb k "out of scope" then "UNKNOWN"
    else v.
Proof.
  unfold NORMALISE_MAP. cbn [In]. intros H.
  repeat (destruct H as [[= <- <-] | H]; [reflexivity|]). destruct H.
Qed.

Lemma table_keys_normalised_witness :
  normalise_vat_code (CStr "northern ireland") "" = "EXEMPT"
  /\ normalise_vat_code (CStr "outofscope") "" = "OOS".
Proof.
  split.
  - apply (table_keys_normalised "northern ireland" "NI"). cbn. tauto.
  - apply (table_keys_normalised "outofscope" "OOS"). cbn. tauto.
Defined.

(** ** The regex buckets *)

Lemma is_suffix_refl (s : string) : is_suffix s s.
Proof. destruct s; now left. Qed.

Lemma is_suffix_tail (t : string) (c : ascii) (s : string) :
  is_suffix t s -> is_suffix t (String c s).
Proof. intros H. now right. Qed.

Lemma is_suffix_trans (a b c : string) :
  is_suffix a b -> is_suffix b c -> is_suffix a c.
Proof.
  revert a b; induction c as [|x c IH]; intros a b Hab Hbc.
  - destruct Hbc as [-> | []]. exact Hab.
  - destruct Hbc as [-> | Hbc]; [exact Hab|].
    right. now apply (IH a b).
Qed.

Lemma no_blank_suffix (t s : string) :
  is_suffix t s -> no_blank s = true -> no_blank t = true.
Proof.
  induction s as [|c s IH]; intros [-> | H] Hs; trivial; try contradiction.
  cbn in Hs. apply andb_true_iff in Hs as [_ Hs]. now apply IH.
Qed.

Lemma lit_suffix (p : string) (before : option ascii) (s : string) (st : Re.pos) :
  Re.lit p before s = Some st -> is_suffix (Re.rest st) s.
Proof.
  revert before s; induction p as [|a p IH]; intros before s; cbn [Re.lit].
  - intros [= <-]. apply is_suffix_refl.
  - destruct s as [|b s]; [discriminate|].
    destruct (Ascii.eqb _ _); [|discriminate].
    intros H. apply is_suffix_tail. now apply (IH (Some b)).
Qed.

Lemma spaces_suffix (before : option ascii) (s : string) (st : Re.pos) :
  In st (Re.spaces before s) -> is_suffix (Re.rest st) s.
Proof.
  revert before; induction s as [|c s IH]; intros before; cbn [Re.spaces].
  - intros [<- | []]. apply is_suffix_refl.
  - destruct (PyStr.isspace c).
    + intros H. apply in_app_or in H as [H | [<- | []]].
      * apply is_suffix_tail. now apply (IH (Some c)).
      * apply is_suffix_refl.
    + intros [<- | []]. apply is_suffix_refl.
Qed.

(** A match never ends before the place it starts from. *)
Lemma run_suffix (r : Re.regex) (st st' : Re.pos) :
  In st' (Re.run r st) -> is_suffix (Re.rest st') (Re.rest st).
Proof.
  revert st st'; induction r as [p | | | | a IHa b IHb | a IHa b IHb];
    intros st st'; cbn [Re.run].
  - destruct (Re.lit p (Re.prev st) (Re.rest st)) eqn:Hl; [|intros []].
    intros [<- | []]. now apply lit_suffix in Hl.
  - apply spaces_suffix.
  - destruct (Re.rest st) as [|c s'] eqn:Hr.
    + intros [<- | []]. rewrite Hr. apply is_suffix_refl.
    + destruct (Ascii.eqb c "-").
      * intros [<- | [<- | []]]; cbn [Re.rest].
        -- apply is_suffix_tail, is_suffix_refl.
        -- rewrite Hr. apply is_suffix_refl.
      * intros [<- | []]. rewrite Hr. apply is_suffix_refl.
  - destruct (xorb _ _); [|intros []]. intros [<- | []]. apply is_suffix_refl.
  - intros H. apply in_flat_map in H as [mid [Ha Hb]].
    apply (is_suffix_trans _ (Re.rest mid)); [now apply IHb | now apply IHa].
  - intros H. apply in_app_or in H as [H | H]; [now apply IHa | now apply IHb].
Qed.

Lemma lower_char_blank (b : ascii) :
  Ascii.eqb (PyStr.lower_char " ") (PyStr.lower_char b) = Ascii.eqb " " b.
Proof. destruct b as [[] [] [] [] [] [] [] []]; reflexivity. Qed.

Lemma blank_needs_a_blank (st : Re.pos) :
  no_blank (Re.rest st) = true -> Re.run (Re.Lit " ") st = [].
Proof.
  cbn [Re.run Re.lit]. destruct (Re.rest st) as [|b s]; [reflexivity|].
  cbn [no_blank]. rewrite lower_char_blank, Ascii.eqb_sym.
  now destruct (Ascii.eqb " " b).
Qed.

Lemma blank_family_fails (a b : Re.regex) (st : Re.pos) :
  no_blank (Re.rest st) = true ->
  Re.run (Re.Alt (Re.Seq a (Re.Lit " ")) b) st = Re.run b st.
Proof.
  intros Hst. cbn [Re.run].
  assert (H : forall l, (forall mid, In mid l -> no_blank (Re.rest mid) = true) ->
                        flat_map (fun st0 =>
                                    match Re.lit " " (Re.prev st0) (Re.rest st0) with
                                    | Some st' => [st']
                                    | None => []
                                    end) l = []).
  { induction l as [|mid l IH]; intros Hl; [reflexivity|]. cbn [flat_map].
    pose proof (blank_needs_a_blank mid (Hl mid (or_introl eq_refl))) as Hm.
    cbn [Re.run] in Hm. rewrite Hm. apply IH. intros m Hin. apply Hl. now right. }
  rewrite H; [reflexivity|].
  intros mid Hmid. apply run_suffix in Hmid. now apply (no_blank_suffix _ _ Hmid).
Qed.

Lemma run_without_blank (st : Re.pos) :
  no_blank (Re.rest st) = true ->
  Re.run VAT_CODE_REGEX st = Re.run ni_eu_family st.
Proof.
  intros Hst. unfold VAT_CODE_REGEX.
  now rewrite !blank_family_fails by exact Hst.
Qed.

Lemma search_from_without_blank (before : option ascii) (s : string) :
  no_blank s = true ->
  Re.search_from VAT_CODE_REGEX before s = Re.search_from ni_eu_family before s.
Proof.
  revert before; induction s as [|c s IH]; intros before Hs;
    cbn [Re.search_from]; rewrite run_without_blank by exact Hs.
  - reflexivity.
  - destruct (Re.run ni_eu_family _); [|reflexivity].
    apply IH. cbn in Hs. now apply andb_true_iff in Hs as [_ Hs].
Qed.

(** X5: the first five families of the pattern end in a blank, so in a
    code token that holds no blank they never match: the search of the whole
    pattern is the search of its last family (ni, northern ireland, EU, EC)
    alone, and a token in which that family finds nothing, such as t20 or
    exempt, leaves the regex stage without a result. *)
Theorem regex_needs_a_blank (s : string) :
  no_blank s = true ->
  Re.search VAT_CODE_REGEX s = Re.search ni_eu_family s
  /\ (Re.search ni_eu_family s = None -> regex_stage s = None).
Proof.
  intros Hs. unfold Re.search.
  rewrite (search_from_without_blank None s Hs). split; [reflexivity|].
  intros Hnone. unfold regex_stage, Re.search.
  rewrite (search_from_without_blank None s Hs), Hnone.
  now destruct (String.eqb s "").
Qed.

Lemma regex_needs_a_blank_witness :
  Re.search VAT_CODE_REGEX "standard" = Re.search ni_eu_family "standard"
  /\ (Re.search ni_eu_family "standard" = None -> regex_stage "standard" = None).
Proof. apply (regex_needs_a_blank "standard"). reflexivity. Defined.

(** ** Source type *)

Lemma lower_char_idem (c : ascii) :
  PyStr.lower_char (PyStr.lower_char c) = PyStr.lower_char c.
Proof. destruct c as [[] [] [] [] [] [] [] []]; reflexivity. Qed.

Lemma lower_idem (s : string) : PyStr.lower (PyStr.lower s) = PyStr.lower s.
Proof.
  induction s as [|c s IH]; [reflexivity|].
  cbn [PyStr.lower]. now rewrite lower_char_idem, IH.
Qed.

Lemma lower_app (a b : string) :
  PyStr.lower (a ++ b) = PyStr.lower a ++ PyStr.lower b.
Proof.
  induction a as [|c a IH]; [reflexivity|]. cbn. now rewrite IH.
Qed.

Lemma startswith_before_blank (w x b : string) :
  no_blank w = true ->
  PyStr.startswith w (x ++ String " " b) = PyStr.startswith w x.
Proof.
  revert x; induction w as [|c w IH]; intros x Hw; [now destruct x|].
  cbn in Hw. apply andb_true_iff in Hw as [Hc Hw].
  destruct x as [|d x]; cbn.
  - apply negb_true_iff in Hc. now rewrite Hc.
  - now rewrite IH.
Qed.

Lemma contains_across_blank (w a b : string) :
  no_blank w = true ->
  PyStr.contains w (a ++ String " " b)
  = PyStr.contains w a || PyStr.contains w b.
Proof.
  intros Hw. induction a as [|c a IH].
  - pose proof (startswith_before_blank w "" b Hw) as H0.
    cbn [append] in H0. cbn [append PyStr.contains].
    rewrite H0. now rewrite orb_false_r.
  - change (String c a ++ String " " b) with (String c (a ++ String " " b)).
    cbn [PyStr.contains].
    rewrite IH.
    change (String c (a ++ String " " b)) with (String c a ++ String " " b).
    rewrite (startswith_before_blank w (String c a) b Hw).
    now rewrite orb_assoc.
Qed.

Lemma any_in_across_blank (words : list string) (a b : string) :
  forallb no_blank words = true ->
  any_in words (a ++ String " " b) = any_in words a || any_in words b.
Proof.
  unfold any_in. induction words as [|w words IH]; intros Hw; [reflexivity|].
  cbn in Hw. apply andb_true_iff in Hw as [Hw Hws].
  cbn [existsb]. rewrite (contains_across_blank w a b Hw), (IH Hws).
  destruct (PyStr.contains w a), (PyStr.contains w b),
    (existsb _ words), (existsb _ words); reflexivity.
Qed.

(** X6: the source type is decided by the two names taken apart and with
    letter case ignored: it is sales when a sales word (sale, ar, output)
    occurs in the lower-cased sheet name or file name, else purchases when
    a purchase word (purchase, ap, input, payable) does, else unknown; the
    blank that joins the names never completes a word. A sales word in
    either name wins over any purchase word. *)
Theorem source_type_by_parts (sheet_name file_name : string) :
  detect_source_type sheet_name file_name
  = (if any_in sales_words (PyStr.lower sheet_name)
        || any_in sales_words (PyStr.lower file_name)
     then "sales"
     else if any_in purchase_words (PyStr.lower sheet_name)
             || any_in purchase_words (PyStr.lower file_name)
          then "purchases"
          else "unknown")
  /\ detect_source_type (PyStr.lower sheet_name) (PyStr.lower file_name)
     = detect_source_type sheet_name file_name.
Proof.
  assert (H : forall s f,
             detect_source_type s f
             = (if any_in sales_words (PyStr.lower s) || any_in sales_words (PyStr.lower f)
                then "sales"
                else if any_in purchase_words (PyStr.lower s)
                        || any_in purchase_words (PyStr.lower f)
                     then "purchases"
                     else "unknown")).
  { intros s f. unfold detect_source_type.
    rewrite lower_app. cbn [append PyStr.lower].
    change (PyStr.lower_char " ") with " "%char.
    change ["sale"; "ar"; "output"] with sales_words.
    change ["purchase"; "ap"; "input"; "payable"] with purchase_words.
    now rewrite !any_in_across_blank by reflexivity. }
  split; [apply H|]. now rewrite !H, !lower_idem.
Qed.

(** ** Column resolution, continued *)

Lemma find_col_sound (columns keys : list string) (c : string) :
  _find_col columns keys = Some c ->
  In c columns
  /\ exists want, In want keys
                  /\ (exact_pair (want, c) = true \/ containing_pair (want, c) = true).
Proof.
  rewrite find_col_refines. unfold find_col_spec.
  destruct (find exact_pair (list_prod keys columns)) as [[want c']|] eqn:Hf.
  - intros [= <-]. apply find_some in Hf as [Hin Hp].
    apply in_prod_iff in Hin as [Hw Hc]. split; [exact Hc|].
    exists want. auto.
  - destruct (find containing_pair (list_prod keys columns)) as [[want c']|] eqn:Hg;
      [|discriminate].
    intros [= <-]. apply find_some in Hg as [Hin Hp].
    apply in_prod_iff in Hin as [Hw Hc]. split; [exact Hc|].
    exists want. auto.
Qed.

Lemma find_col_none_iff (columns keys : list string) :
  _find_col columns keys = None
  <-> forall want c, In want keys -> In c columns ->
                     exact_pair (want, c) = false /\ containing_pair (want, c) = false.
Proof.
  rewrite find_col_refines. unfold find_col_spec. split.
  - destruct (find exact_pair (list_prod keys columns)) as [p|] eqn:Hf; [discriminate|].
    destruct (find containing_pair (list_prod keys columns)) as [p|] eqn:Hg;
      [discriminate|].
    intros _ want c Hw Hc. split.
    + apply (find_none _ _ Hf (want, c)). now apply in_prod.
    + apply (find_none _ _ Hg (want, c)). now apply in_prod.
  - intros Hno.
    destruct (find exact_pair (list_prod keys columns)) as [[want c]|] eqn:Hf.
    + apply find_some in Hf as [Hin Hp]. apply in_prod_iff in Hin as [Hw Hc].
      destruct (Hno want c Hw Hc) as [He _]. congruence.
    + destruct (find containing_pair (list_prod keys columns)) as [[want c]|] eqn:Hg;
        [|reflexivity].
      apply find_some in Hg as [Hin Hp]. apply in_prod_iff in Hin as [Hw Hc].
      destruct (Hno want c Hw Hc) as [_ He]. congruence.
Qed.

(** X7: the resolver only ever returns a header of the sheet, and one that
    equals or contains one of the candidates; it returns nothing exactly
    when no header equals or contains any candidate, so in particular for a
    sheet without headers or an empty list of candidates. *)
Theorem find_col_sound_and_complete (columns keys : list string) :
  (forall c, _find_col columns keys = Some c ->
             In c columns
             /\ exists want, In want keys
                             /\ (exact_pair (want, c) = true
                                 \/ containing_pair (want, c) = true))
  /\ (_find_col columns keys = None
      <-> forall want c, In want keys -> In c columns ->
                         exact_pair (want, c) = false
                         /\ containing_pair (want, c) = false)
  /\ _find_col [] keys = None
  /\ _find_col columns [] = None.
Proof.
  split; [intros c; apply find_col_sound|].
  split; [apply find_col_none_iff|]. split.
  - apply find_col_none_iff. intros ? ? _ [].
  - apply find_col_none_iff. intros ? ? [].
Qed.

Lemma find_col_sound_and_complete_witness :
  In "Total (GBP)" ["Ref"; "Total (GBP)"]
  /\ exists want, In want (candidates "gross")
                  /\ (exact_pair (want, "Total (GBP)") = true
                      \/ containing_pair (want, "Total (GBP)") = true).
Proof.
  destruct (find_col_sound_and_complete ["Ref"; "Total (GBP)"] (candidates "gross"))
    as (H & _).
  apply H. reflexivity.
Defined.

Lemma contains_nonempty (w text : string) :
  w <> "" -> PyStr.contains w (PyStr.lower text) = true -> text <> "".
Proof.
  intros Hw H ->. cbn in H. destruct w; [congruence | discriminate].
Qed.

Lemma single_header_resolves (c field want : string) :
  In want (candidates field) ->
  PyStr.lower want <> "" ->
  PyStr.contains (PyStr.lower want) (PyStr.lower c) = true ->
  or_none (_find_col [c] (candidates field)) = Some c.
Proof.
  intros Hin Hne Hc.
  destruct (_find_col [c] (candidates field)) as [c'|] eqn:Hf.
  - apply find_col_sound in Hf as [[<- | []] _].
    unfold or_none.
    destruct (String.eqb_spec c "") as [-> | _]; [|reflexivity].
    now apply contains_nonempty in Hc.
  - exfalso.
    destruct (proj1 (find_col_none_iff [c] (candidates field)) Hf want c Hin
                (or_introl eq_refl)) as [_ He].
    unfold containing_pair in He. cbn [fst snd] in He. congruence.
Qed.

(** X8: the fields are resolved one by one and nothing keeps two fields
    from taking the same header. In a sheet whose only header contains both
    vat and amount (as VAT Amount does) that header is the net column and
    the vat column at once, so every row gets the same cell as its net and
    as its vat. *)
Theorem one_header_for_two_fields (c : string) (r : list cell) :
  PyStr.contains "vat" (PyStr.lower c) = true ->
  PyStr.contains "amount" (PyStr.lower c) = true ->
  c_net (resolve [c]) = Some c
  /\ c_vat (resolve [c]) = Some c
  /\ row_net [c] (resolve [c]) r = row_vat [c] (resolve [c]) r.
Proof.
  intros Hvat Hamount.
  assert (Hn : c_net (resolve [c]) = Some c).
  { cbn [resolve c_net].
    apply (single_header_resolves c "net" "amount"); trivial.
    - cbn. tauto.
    - discriminate. }
  assert (Hv : c_vat (resolve [c]) = Some c).
  { cbn [resolve c_vat].
    apply (single_header_resolves c "vat" "vat"); trivial.
    - cbn. tauto.
    - discriminate. }
  repeat split; trivial.
  unfold row_net, row_vat. now rewrite Hn, Hv.
Qed.

Lemma one_header_for_two_fields_witness :
  c_net (resolve ["VAT Amount"]) = Some "VAT Amount"
  /\ c_vat (resolve ["VAT Amount"]) = Some "VAT Amount"
  /\ row_net ["VAT Amount"] (resolve ["VAT Amount"]) [CInt 20]
     = row_vat ["VAT Amount"] (resolve ["VAT Amount"]) [CInt 20].
Proof.
  apply (one_header_for_two_fields "VAT Amount" [CInt 20]); reflexivity.
Defined.

(** ** Value coercion, continued *)

Lemma remove_commas_app (a b : string) :
  PyStr.remove_commas (a ++ b) = PyStr.remove_commas a ++ PyStr.remove_commas b.
Proof.
  induction a as [|c a IH]; [reflexivity|].
  cbn. destruct (Ascii.eqb c ","); cbn; now rewrite IH.
Qed.

(** X9: a comma in a text cell is dropped wherever it stands, so it is
    never read as a decimal mark: the text with a comma put in at any place
    coerces to the same number as the text without it. *)
Theorem comma_is_ignored_anywhere (a b : string) :
  _to_float (CStr (a ++ "," ++ b)) = _to_float (CStr (a ++ b))
  /\ cleaned (a ++ "," ++ b) = cleaned (a ++ b).
Proof.
  assert (H : cleaned (a ++ "," ++ b) = cleaned (a ++ b)).
  { unfold cleaned. now rewrite !remove_commas_app. }
  split; [|exact H].
  unfold _to_float, _to_float_try. cbn [Cell.isna Cell.float_of].
  fold (cleaned (a ++ "," ++ b)). fold (cleaned (a ++ b)). now rewrite H.
Qed.

(** ** Record extraction, continued *)

Lemma parse_row_fields (show_name sheet_name src : string)
    (cols : list string) (rc : Resolved) (r : list cell) (ln : Line) :
  parse_row show_name sheet_name src cols rc r = Some ln ->
  show ln = show_name
  /\ sheet ln = sheet_name
  /\ source_type ln = src
  /\ (exists tag, vat_code ln = Some tag /\ In tag all_tags)
  /\ (forall k v, In (k, v) (raw ln) -> Cell.isna v = true -> v = CNone)
  /\ map fst (raw ln) = map fst (row_items cols r).
Proof.
  unfold parse_row. destruct (_ && _ && _); [discriminate|].
  intros [= <-]. cbn [show sheet source_type vat_code raw].
  split; [reflexivity|]. split; [reflexivity|]. split; [reflexivity|].
  split; [|split].
  - destruct (is_some (c_code rc)); eexists; split; try reflexivity;
      apply normalise_in_all_tags.
  - intros k v Hin Hna. apply in_map_iff in Hin as [[k' x] [Heq _]].
    cbn [fst snd] in Heq. destruct (Cell.isna x) eqn:Hx.
    + now injection Heq as _ <-.
    + injection Heq as _ <-. congruence.
  - now rewrite map_map.
Qed.

Lemma parse_sheet_line_frame (show_name file_name sheet_name : string)
    (read : option DataFrame) (ln : Line) :
  In ln (parse_sheet show_name file_name sheet_name read) ->
  exists df r,
    read = Some df
    /\ frame_empty df = false
    /\ (is_some (c_net (resolve (columns df)))
        || is_some (c_vat (resolve (columns df)))
        || is_some (c_gross (resolve (columns df))) = true)
    /\ In r (rows df)
    /\ parse_row show_name sheet_name (detect_source_type sheet_name file_name)
         (columns df) (resolve (columns df)) r = Some ln.
Proof.
  unfold parse_sheet. destruct read as [df|]; [|intros []].
  destruct (frame_empty df) eqn:He; [intros []|].
  destruct (_ || _ || _) eqn:Hnum; cbn [negb]; [|intros []].
  intros H. apply in_filter_map in H as [r [Hr Hp]].
  exists df, r. repeat split; trivial.
Qed.

Lemma parse_row_raw (show_name sheet_name src : string)
    (cols : list string) (rc : Resolved) (r : list cell) (ln : Line) :
  parse_row show_name sheet_name src cols rc r = Some ln ->
  raw ln = map (fun kv => (fst kv, if Cell.isna (snd kv) then CNone else snd kv))
               (row_items cols r)
  /\ date ln = shown_if cols r (c_date rc)
  /\ ref ln = shown_if cols r (c_ref rc)
  /\ supplier ln = shown_if cols r (c_supplier rc)
  /\ description ln = shown_if cols r (c_desc rc).
Proof.
  unfold parse_row. destruct (_ && _ && _); [discriminate|].
  intros [= <-]. repeat split; reflexivity.
Qed.

(** X10: every line [parse_excel] returns comes from a row of a readable,
    non-empty sheet of the workbook in which an amount column resolves: it
    is the line the loop body builds for that row. Its show is the file name
    without its extension, its sheet is the name of that sheet, its source
    type is the one detected from that sheet name and the file name, its
    amounts are the coerced amounts of the row and not all zero, its code is
    one of the eight tags, its texts are the renderings of the row's cells,
    and its raw record is the row under the headers of the sheet with each
    missing value replaced by None. *)
Theorem parse_excel_line_provenance (file_storage : FileStorage) (ln : Line) :
  In ln (parse_excel file_storage) ->
  show ln = Path.splitext_root (filename file_storage)
  /\ source_type ln = detect_source_type (sheet ln) (filename file_storage)
  /\ (exists tag, vat_code ln = Some tag /\ In tag all_tags)
  /\ (forall k v, In (k, v) (raw ln) -> Cell.isna v = true -> v = CNone)
  /\ exists df r,
       In (sheet ln, Some df) (sheets file_storage)
       /\ frame_empty df = false
       /\ (is_some (c_net (resolve (columns df)))
           || is_some (c_vat (resolve (columns df)))
           || is_some (c_gross (resolve (columns df))) = true)
       /\ In r (rows df)
       /\ parse_row (Path.splitext_root (filename file_storage)) (sheet ln)
            (detect_source_type (sheet ln) (filename file_storage))
            (columns df) (resolve (columns df)) r = Some ln
       /\ all_zero (columns df) (resolve (columns df)) r = false
       /\ net ln = row_net (columns df) (resolve (columns df)) r
       /\ vat ln = row_vat (columns df) (resolve (columns df)) r
       /\ gross ln = row_gross (columns df) (resolve (columns df)) r
       /\ raw ln = map (fun kv => (fst kv, if Cell.isna (snd kv) then CNone else snd kv))
                       (row_items (columns df) r)
       /\ date ln = shown_if (columns df) r (c_date (resolve (columns df)))
       /\ ref ln = shown_if (columns df) r (c_ref (resolve (columns df)))
       /\ supplier ln = shown_if (columns df) r (c_supplier (resolve (columns df)))
       /\ description ln = shown_if (columns df) r (c_desc (resolve (columns df)))
       /\ map fst (raw ln) = map fst (row_items (columns df) r).
Proof.
  unfold parse_excel. intros H.
  apply in_flat_map in H as [[name read] [Hsheet H]]. cbn [fst snd] in H.
  apply parse_sheet_line_frame in H as (df & r & -> & He & Hnum & Hr & Hp).
  pose proof (parse_row_fields _ _ _ _ _ _ _ Hp)
    as (Hshow & Hsh & Hsrc & Htag & Hraw & Hkeys).
  pose proof (parse_row_amounts _ _ _ _ _ _ _ Hp) as (Hz & Hn & Hv & Hg).
  pose proof (parse_row_raw _ _ _ _ _ _ _ Hp) as (Hr1 & Hr2 & Hr3 & Hr4 & Hr5).
  subst name. split; [exact Hshow|]. split; [exact Hsrc|].
  split; [exact Htag|]. split; [exact Hraw|].
  exists df, r. repeat split; trivial.
Qed.

Lemma parse_excel_line_provenance_witness :
  show bare_line = Path.splitext_root "show1.xlsx"
  /\ source_type bare_line = detect_source_type (sheet bare_line) "show1.xlsx".
Proof.
  destruct (parse_excel_line_provenance
              {| filename := "show1.xlsx"; sheets := [("Sheet1", Some bare_frame)] |}
              bare_line (or_introl eq_refl)) as (H1 & H2 & _).
  split; [exact H1 | exact H2].
Defined.






(** ** The upload route *)

Lemma collect_readable (files : list FileStorage) (acc : list Line) :
  collect_lines (map Readable files) acc
  = inr (acc ++ flat_map parse_excel files)%list.
Proof.
  revert acc; induction files as [|fs files IH]; intros acc; cbn.
  - now rewrite app_nil_r.
  - now rewrite IH, app_assoc.
Qed.

Lemma collect_unreadable (pre : list FileStorage) (name why : string)
    (post : list upload) (acc : list Line) :
  collect_lines (map Readable pre ++ Unreadable name why :: post)%list acc
  = inl ("Failed to parse " ++ name ++ ": " ++ why).
Proof.
  revert acc; induction pre as [|fs pre IH]; intros acc; cbn; [reflexivity|].
  apply IH.
Qed.

Lemma get_cap_preview (t : Totals) (name : string) :
  Dict.get name (per_show (cap_preview t))
  = option_map (fun acc => {| boxes := boxes acc; lines := firstn 500 (lines acc) |})
               (Dict.get name (per_show t)).
Proof.
  unfold cap_preview. cbn [per_show].
  induction (per_show t) as [|[k acc] d IH]; cbn; [reflexivity|].
  now destruct (String.eqb k name).
Qed.

(** X12: when every uploaded file is readable, [api_parse] hands over the
    totals of all the lines of all the files: the cap on the preview touches
    no total. Every group has the boxes [assign_boxes] gave it and keeps the
    first 500 of its lines, the groups and the consolidated boxes are
    unchanged. *)
Theorem preview_cap_keeps_totals (first : FileStorage) (others : list FileStorage) :
  let all_lines := flat_map parse_excel (first :: others) in
  exists result,
    api_parse (map Readable (first :: others)) = Parsed result
    /\ consolidated result = consolidated (assign_boxes all_lines)
    /\ Dict.keys (per_show result) = Dict.keys (per_show (assign_boxes all_lines))
    /\ forall name,
         show_boxes result name = show_boxes (assign_boxes all_lines) name
         /\ option_map lines (Dict.get name (per_show result))
            = (if has_show name all_lines
               then Some (firstn 500 (lines_of name all_lines))
               else None).
Proof.
  intros all_lines.
  exists (cap_preview (assign_boxes all_lines)). split; [|split; [|split]].
  - unfold api_parse. cbn [map]. change (Readable first :: map Readable others)
      with (map Readable (first :: others)).
    now rewrite collect_readable.
  - reflexivity.
  - unfold cap_preview, Dict.keys. cbn [per_show]. now rewrite map_map.
  - intros name. split.
    + unfold show_boxes. rewrite get_cap_preview.
      now destruct (Dict.get name (per_show (assign_boxes all_lines))).
    + rewrite get_cap_preview. pose proof (group_lines all_lines name) as Hg.
      destruct (Dict.get name (per_show (assign_boxes all_lines))) as [acc|];
        destruct (has_show name all_lines); cbn [option_map lines] in *;
        congruence.
Qed.

(** X13: [api_parse] answers with an error and no totals when no file is
    uploaded, and when a file cannot be parsed: the error names the first
    such file, the lines of the files before it are dropped and the files
    after it are not looked at. *)
Theorem first_unreadable_file_aborts
    (pre : list FileStorage) (name why : string) (post : list upload) :
  api_parse [] = Bad_request "No files uploaded"
  /\ api_parse (map Readable pre ++ Unreadable name why :: post)%list
     = Bad_request ("Failed to parse " ++ name ++ ": " ++ why).
Proof.
  split; [reflexivity|]. unfold api_parse.
  rewrite collect_unreadable. now destruct pre.
Qed.

(** ** The export route *)

Lemma take_length (n : nat) (s : string) :
  String.length (PyStr.take n s) <= n.
Proof.
  revert s; induction n as [|n IH]; intros s; [cbn; lia|].
  destruct s as [|c s]; cbn; [lia|]. specialize (IH s). lia.
Qed.

Lemma take_all_chars (p : ascii -> bool) (n : nat) (s : string) :
  all_chars p s = true -> all_chars p (PyStr.take n s) = true.
Proof.
  revert s; induction n as [|n IH]; intros s; [reflexivity|].
  destruct s as [|c s]; cbn; [reflexivity|].
  intros H. apply andb_true_iff in H as [Hc Hs]. now rewrite Hc, IH.
Qed.

Lemma sub_non_alnum_chars (in_run : bool) (s : string) :
  all_chars (fun c => is_ascii_alnum c || Ascii.eqb c "_")
            (sub_non_alnum_from in_run s) = true.
Proof.
  revert in_run; induction s as [|c s IH]; intros in_run; [reflexivity|].
  cbn [sub_non_alnum_from]. destruct (is_ascii_alnum c) eqn:Hc.
  - cbn [all_chars]. now rewrite Hc, IH.
  - destruct in_run; [apply IH|]. cbn [all_chars]. now rewrite IH.
Qed.

Lemma sub_non_alnum_swap (in_run : bool) (a : string) (c1 c2 : ascii) (b : string) :
  is_ascii_alnum c1 = false -> is_ascii_alnum c2 = false ->
  sub_non_alnum_from in_run (a ++ String c1 b)
  = sub_non_alnum_from in_run (a ++ String c2 b).
Proof.
  intros H1 H2. revert in_run; induction a as [|c a IH]; intros in_run.
  - cbn. now rewrite H1, H2.
  - cbn. destruct (is_ascii_alnum c); [now rewrite IH|].
    destruct in_run; now rewrite IH.
Qed.

Lemma append_length (a b : string) :
  String.length (a ++ b) = String.length a + String.length b.
Proof. induction a as [|c a IH]; cbn; [reflexivity | now rewrite IH]. Qed.

(** X14: the sheet name [api_export] builds for the detail of a show holds
    only ASCII letters, digits and underscores and has at most 35
    characters, 28 of the show and the 7 of [_detail]. The name does not
    tell shows apart that differ in a character other than a letter or a
    digit: two such shows get the same sheet name. *)
Theorem detail_sheet_name_shape (show_name : string) :
  all_chars (fun c => is_ascii_alnum c || Ascii.eqb c "_")
            (detail_sheet_name show_name) = true
  /\ String.length (safe_name show_name) <= 28
  /\ String.length (detail_sheet_name show_name) <= 35
  /\ forall a c1 c2 b,
       is_ascii_alnum c1 = false -> is_ascii_alnum c2 = false ->
       detail_sheet_name (a ++ String c1 b) = detail_sheet_name (a ++ String c2 b).
Proof.
  unfold detail_sheet_name, safe_name. split; [|split; [|split]].
  - assert (H : forall s t, all_chars (fun c => is_ascii_alnum c || Ascii.eqb c "_") s = true ->
                            all_chars (fun c => is_ascii_alnum c || Ascii.eqb c "_") t = true ->
                            all_chars (fun c => is_ascii_alnum c || Ascii.eqb c "_") (s ++ t) = true).
    { induction s as [|c s IH]; intros t Hs Ht; [exact Ht|].
      cbn in *. apply andb_true_iff in Hs as [Hc Hs]. now rewrite Hc, IH. }
    apply H; [|reflexivity]. apply take_all_chars, sub_non_alnum_chars.
  - apply take_length.
  - rewrite append_length. cbn [String.length].
    pose proof (take_length 28 (sub_non_alnum_from false show_name)). lia.
  - intros a c1 c2 b H1 H2. now rewrite (sub_non_alnum_swap false a c1 c2 b H1 H2).
Qed.

Lemma detail_sheet_name_shape_witness :
  detail_sheet_name ("tour" ++ String " " "2024")
  = detail_sheet_name ("tour" ++ String "-" "2024").
Proof.
  destruct (detail_sheet_name_shape "") as (_ & _ & _ & H).
  apply (H "tour" " "%char "-"%char "2024"); reflexivity.
Defined.

(** ** Box assignment, continued *)

Lemma boxes_ext (a b : Boxes) :
  (forall k, get_box k a = get_box k b) -> a = b.
Proof.
  intros H. destruct a, b.
  pose proof (H B1); pose proof (H B4); pose proof (H B6);
    pose proof (H B7); pose proof (H B8); pose proof (H B9).
  cbn in *. congruence.
Qed.

Lemma group_totals_by_name (lns : list Line) (k : box_key) :
  group_totals (assign_boxes lns) k
  = map (fun name =>
           match group_total (assign_boxes lns) name k with
           | Some x => x
           | None => zero
           end)
        (first_seen (map show lns)).
Proof.
  unfold group_totals, group_total, show_boxes.
  rewrite <- (map_get_keys (fun a => get_box k (boxes a)) zero).
  - unfold assign_boxes at 2; cbn [per_show]. rewrite per_show_keys.
    apply map_ext. intros name. now destruct (Dict.get name _).
  - unfold assign_boxes; cbn [per_show]. rewrite per_show_keys.
    apply NoDup_first_seen.
Qed.

Lemma rule_view_addend (a b : Line) (k : box_key) :
  rule_view a = rule_view b -> show a = show b /\ addend k a = addend k b.
Proof.
  destruct a, b. unfold rule_view, addend, sales_standard, purchase_reclaim,
    sales_zero, ni_eu_sales, ni_eu_other.
  cbn [show source_type vat_code net vat]. intros [= -> -> -> -> ->].
  split; reflexivity.
Qed.

Lemma rule_view_groups (l1 l2 : list Line) (name : string) (k : box_key) :
  map rule_view l1 = map rule_view l2 ->
  has_show name l1 = has_show name l2
  /\ addends k (lines_of name l1) = addends k (lines_of name l2)
  /\ map show l1 = map show l2.
Proof.
  unfold has_show, addends, lines_of.
  revert l2; induction l1 as [|a l1 IH]; intros [|b l2] H;
    try discriminate; [repeat split|].
  cbn [map] in H.
  assert (Hab : rule_view a = rule_view b) by congruence.
  assert (Ht : map rule_view l1 = map rule_view l2) by congruence.
  destruct (IH l2 Ht) as (IH1 & IH2 & IH3).
  destruct (rule_view_addend a b k Hab) as [Hs Ha].
  cbn [existsb filter map]. rewrite Hs, IH1, IH3. repeat split.
  destruct (String.eqb (show b) name); [|exact IH2].
  cbn [filter_map]. rewrite Ha, IH2. reflexivity.
Qed.

(** X15: the totals read five fields of a line and no other: two lists of
    lines that agree, line by line, on show, source type, code, net and vat
    get the same groups, the same box totals in every group and the same
    consolidated boxes, whatever their gross, dates, references, suppliers,
    descriptions, sheets and raw records are. *)
Theorem totals_read_five_fields (l1 l2 : list Line) :
  map rule_view l1 = map rule_view l2 ->
  Dict.keys (per_show (assign_boxes l1)) = Dict.keys (per_show (assign_boxes l2))
  /\ (forall name, show_boxes (assign_boxes l1) name = show_boxes (assign_boxes l2) name)
  /\ consolidated (assign_boxes l1) = consolidated (assign_boxes l2).
Proof.
  intros H.
  assert (Hshow : map show l1 = map show l2)
    by (destruct (rule_view_groups l1 l2 "" B1 H) as (_ & _ & Hs); exact Hs).
  assert (Hgt : forall name k,
             group_total (assign_boxes l1) name k = group_total (assign_boxes l2) name k).
  { intros name k. rewrite !group_total_is_sum.
    destruct (rule_view_groups l1 l2 name k H) as (-> & -> & _). reflexivity. }
  split; [|split].
  - unfold assign_boxes; cbn [per_show]. now rewrite !per_show_keys, Hshow.
  - intros name. pose proof (fun k => Hgt name k) as Hk.
    unfold group_total in Hk.
    destruct (show_boxes (assign_boxes l1) name) as [b1|],
             (show_boxes (assign_boxes l2) name) as [b2|];
      try (specialize (Hk B1); discriminate); [|reflexivity].
    f_equal. apply boxes_ext. intros k. specialize (Hk k). cbn in Hk. congruence.
  - apply boxes_ext. intros k.
    rewrite !consolidated_box_sum, !group_totals_by_name, Hshow.
    f_equal. apply map_ext. intros name. now rewrite Hgt.
Qed.

Lemma totals_read_five_fields_witness :
  consolidated
    (assign_boxes (map (on_sheet (fun _ => "Other")) tenths))
  = consolidated (assign_boxes tenths).
Proof.
  apply (totals_read_five_fields (map (on_sheet (fun _ => "Other")) tenths) tenths).
  reflexivity.
Defined.

Lemma filter_all_kept (a : string) (ks : list string) :
  ~ In a ks -> filter (fun y => negb (String.eqb y a)) ks = ks.
Proof.
  induction ks as [|k ks IH]; intros H; [reflexivity|]. cbn [filter].
  destruct (String.eqb_spec k a) as [-> | _]; cbn [negb].
  - exfalso. apply H. now left.
  - f_equal. apply IH. intros Hin. apply H. now right.
Qed.

Lemma split_group {A : Type} (F : string -> list A) (a : string) (ks : list string) :
  NoDup ks ->
  Permutation (flat_map F ks)
    ((if existsb (fun y => String.eqb y a) ks then F a else [])
     ++ flat_map F (filter (fun y => negb (String.eqb y a)) ks)).
Proof.
  induction 1 as [|k ks Hk Hnd IH]; [reflexivity|].
  cbn [flat_map existsb filter].
  destruct (String.eqb_spec k a) as [-> | Hne]; cbn [orb negb].
  - now rewrite (filter_all_kept a ks Hk).
  - cbn [flat_map]. rewrite IH at 1. rewrite !app_assoc.
    apply Permutation_app_tail, Permutation_app_comm.
Qed.

Lemma lines_of_absent (name : string) (lns : list Line) :
  has_show name lns = false -> lines_of name lns = [].
Proof.
  unfold has_show, lines_of. induction lns as [|ln lns IH]; [reflexivity|].
  cbn. destruct (String.eqb (show ln) name); [discriminate | exact IH].
Qed.

Lemma flat_map_agree {A B : Type} (f g : A -> list B) (l : list A) :
  (forall x, In x l -> f x = g x) -> flat_map f l = flat_map g l.
Proof.
  induction l as [|x l IH]; intros H; [reflexivity|]. cbn.
  rewrite (H x (or_introl eq_refl)), IH; [reflexivity|].
  intros y Hy. apply H. now right.
Qed.

Lemma lines_partition (lns : list Line) :
  Permutation lns
    (flat_map (fun name => lines_of name lns) (first_seen (map show lns))).
Proof.
  induction lns as [|ln lns IH]; [reflexivity|].
  cbn [map first_seen flat_map]. unfold lines_of at 1. cbn [filter].
  rewrite String.eqb_refl. cbn [app]. apply perm_skip.
  fold (lines_of (show ln) lns).
  rewrite (flat_map_agree _ (fun name => lines_of name lns)).
  - rewrite IH at 1.
    rewrite (split_group (fun name => lines_of name lns) (show ln)
               (first_seen (map show lns)) (NoDup_first_seen _)).
    apply Permutation_app_tail.
    destruct (existsb _ _) eqn:Hex; [reflexivity|].
    rewrite existsb_first_seen in Hex.
    rewrite lines_of_absent; [reflexivity|].
    unfold has_show. rewrite <- Hex. clear.
    induction lns as [|l lns IH]; [reflexivity|]. cbn. now rewrite IH.
  - intros name Hin. apply filter_In in Hin as [_ Hne].
    unfold lines_of. cbn [filter].
    destruct (String.eqb_spec (show ln) name) as [<- | _]; [|reflexivity].
    now rewrite String.eqb_refl in Hne.
Qed.

Lemma group_lines_of (lns : list Line) (name : string) :
  match Dict.get name (per_show (assign_boxes lns)) with
  | Some acc => lines acc
  | None => []
  end = lines_of name lns.
Proof.
  pose proof (group_lines lns name) as H.
  destruct (Dict.get name (per_show (assign_boxes lns))) as [acc|];
    destruct (has_show name lns) eqn:Hh; cbn in H; try congruence.
  now rewrite lines_of_absent.
Qed.

(** X16: [assign_boxes] stores every line in exactly one group: the lines
    of all groups together are the input lines, each once, and the lines of
    a group are the input lines of its show in input order. *)
Theorem every_line_in_one_group (lns : list Line) :
  Permutation lns
    (flat_map (fun entry => lines (snd entry)) (per_show (assign_boxes lns)))
  /\ forall name acc,
       Dict.get name (per_show (assign_boxes lns)) = Some acc ->
       lines acc = lines_of name lns
       /\ forall ln, In ln (lines acc) -> show ln = name /\ In ln lns.
Proof.
  split.
  - rewrite (lines_partition lns) at 1.
    rewrite !flat_map_concat_map.
    rewrite <- (map_get_keys lines [] (per_show (assign_boxes lns))).
    + unfold assign_boxes at 2; cbn [per_show]. rewrite per_show_keys.
      erewrite map_ext; [reflexivity|].
      intros name. cbn beta. symmetry. apply group_lines_of.
    + unfold assign_boxes; cbn [per_show]. rewrite per_show_keys.
      apply NoDup_first_seen.
  - intros name acc Hget. pose proof (group_lines_of lns name) as H.
    rewrite Hget in H. split; [exact H|].
    intros ln Hin. rewrite H in Hin. unfold lines_of in Hin.
    apply filter_In in Hin as [Hin Hs]. apply String.eqb_eq in Hs. now split.
Qed.

Lemma every_line_in_one_group_witness :
  lines_of "march" tenths = tenths.
Proof.
  destruct (every_line_in_one_group tenths) as [_ H].
  destruct (H "march" {| boxes := boxes (run_acc tenths new_acc); lines := tenths |} eq_refl)
    as [Hl _].
  symmetry. exact Hl.
Defined.

Lemma no_addend_no_change (b : Boxes) (ln : Line) :
  (forall k, addend k ln = None) -> apply_rules b ln = b.
Proof.
  intros H. apply boxes_ext. intros k. now rewrite apply_rules_box, H.
Qed.

(** X17: a line changes the boxes only under one of the five conditions
    of the rule table. So a line without a code, or with the code EXEMPT,
    OOS or UNKNOWN, changes no box whatever its source type; neither does a
    sale at the reduced rate, nor a zero-rated line that is not a sale. *)
Theorem lines_that_change_no_box (b : Boxes) (ln : Line) :
  (sales_standard ln || purchase_reclaim ln || sales_zero ln
   || ni_eu_sales ln || ni_eu_other ln = false -> apply_rules b ln = b)
  /\ (vat_code ln = None \/ vat_code ln = Some "EXEMPT" \/ vat_code ln = Some "OOS"
      \/ vat_code ln = Some "UNKNOWN" -> apply_rules b ln = b)
  /\ (source_type ln = "sales" -> vat_code ln = Some "REDUCED" -> apply_rules b ln = b)
  /\ (source_type ln <> "sales" -> vat_code ln = Some "T0" -> apply_rules b ln = b).
Proof.
  split; [|split; [|split]].
  - intros H. apply no_addend_no_change. intros k. unfold addend.
    repeat (apply orb_false_iff in H as [H ?]).
    destruct k;
      repeat match goal with Hc : _ = false |- _ => rewrite Hc; clear Hc end;
      try rewrite H; reflexivity.
  - intros H. apply no_addend_no_change. intros k.
    unfold addend, sales_standard, purchase_reclaim, sales_zero,
      ni_eu_sales, ni_eu_other.
    destruct H as [-> | [-> | [-> | ->]]]; cbn [code_is String.eqb Ascii.eqb Bool.eqb];
      rewrite ?andb_false_r; destruct k; reflexivity.
  - intros Hs Hc. apply no_addend_no_change. intros k.
    unfold addend, sales_standard, purchase_reclaim, sales_zero,
      ni_eu_sales, ni_eu_other.
    rewrite Hs, Hc. destruct k; reflexivity.
  - intros Hs Hc. apply no_addend_no_change. intros k.
    unfold addend, sales_standard, purchase_reclaim, sales_zero,
      ni_eu_sales, ni_eu_other.
    rewrite Hc. apply String.eqb_neq in Hs. rewrite Hs.
    cbn [code_is String.eqb Ascii.eqb Bool.eqb andb orb negb].
    rewrite ?andb_false_r. destruct k; reflexivity.
Qed.

Lemma lines_that_change_no_box_witness :
  apply_rules init_acc (sample_line "march" "Sales" "sales" "REDUCED" 100 5) = init_acc.
Proof.
  destruct (lines_that_change_no_box init_acc
              (sample_line "march" "Sales" "sales" "REDUCED" 100 5))
    as (_ & _ & H & _).
  apply H; reflexivity.
Defined.

(** ** Extraction and assignment together *)

(** X18: a sheet in which a gross column resolves but neither a net nor a
    vat column does still gives lines, since the gross alone keeps a row; on
    each of them net and vat are 0.0 and gross is the coerced cell, so
    whatever such a line adds to a box is 0.0: the boxes never read the
    gross. *)
Theorem gross_only_sheet_adds_zero
    (show_name file_name sheet_name : string) (df : DataFrame) (ln : Line) :
  c_net (resolve (columns df)) = None ->
  c_vat (resolve (columns df)) = None ->
  In ln (parse_sheet show_name file_name sheet_name (Some df)) ->
  net ln = zero
  /\ vat ln = zero
  /\ PrimFloat.eqb (gross ln) zero = false
  /\ (exists r, In r (rows df)
                /\ gross ln = _to_float (row_get (columns df) r
                                           (c_gross (resolve (columns df)))))
  /\ forall k, addend k ln = None \/ addend k ln = Some zero.
Proof.
  intros Hn Hv H.
  apply parse_sheet_line_frame in H as (df' & r & [= <-] & _ & Hnum & Hr & Hp).
  apply parse_row_amounts in Hp as (Hz & Hnet & Hvat & Hgross).
  unfold row_net in Hnet. unfold row_vat in Hvat. rewrite Hn in Hnet. rewrite Hv in Hvat.
  cbn [is_some] in Hnet, Hvat.
  rewrite Hn, Hv in Hnum. cbn [is_some orb] in Hnum.
  split; [exact Hnet|]. split; [exact Hvat|]. split; [|split].
  - unfold all_zero, row_net, row_vat in Hz. rewrite Hn, Hv in Hz.
    cbn [is_some] in Hz. rewrite <- Hgross in Hz.
    change (PrimFloat.eqb zero zero) with true in Hz. exact Hz.
  - exists r. split; [exact Hr|]. rewrite Hgross. unfold row_gross. now rewrite Hnum.
  - intros k. unfold addend. rewrite Hnet, Hvat.
    destruct k;
      match goal with |- context [if ?c then _ else _] => destruct c end; auto.
Qed.

Lemma gross_only_sheet_adds_zero_witness :
  net total_line = zero
  /\ vat total_line = zero
  /\ PrimFloat.eqb (gross total_line) zero = false
  /\ forall k, addend k total_line = None \/ addend k total_line = Some zero.
Proof.
  destruct (gross_only_sheet_adds_zero "show1" "show1.xlsx" "Totals"
              total_frame total_line eq_refl eq_refl (or_introl eq_refl))
    as (Hnet & Hvat & Hgross & _ & Hadd).
  repeat split; trivial.
Defined.

(** ** Reordering the lines, continued *)

Lemma group_present (lns : list Line) (name : string) :
  is_some (Dict.get name (per_show (assign_boxes lns))) = has_show name lns.
Proof.
  unfold assign_boxes. cbn [per_show]. rewrite get_aggregate. cbn [Dict.get].
  now destruct (has_show name lns).
Qed.

Lemma renaming_keeps_totals (rename : Line -> string) (lns : list Line) :
  (forall name k,
      group_total (assign_boxes (map (on_sheet rename) lns)) name k
      = group_total (assign_boxes lns) name k)
  /\ (forall name,
        show_boxes (assign_boxes (map (on_sheet rename) lns)) name
        = show_boxes (assign_boxes lns) name)
  /\ consolidated (assign_boxes (map (on_sheet rename) lns))
     = consolidated (assign_boxes lns)
  /\ Dict.keys (per_show (assign_boxes (map (on_sheet rename) lns)))
     = Dict.keys (per_show (assign_boxes lns)).
Proof.
  assert (Hshow : map show (map (on_sheet rename) lns) = map show lns).
  { rewrite map_map. now apply map_ext. }
  assert (Hgt : forall name k,
             group_total (assign_boxes (map (on_sheet rename) lns)) name k
             = group_total (assign_boxes lns) name k).
  { intros name k. rewrite !group_total_is_sum.
    destruct (on_sheet_addends rename name k lns) as [-> ->]. reflexivity. }
  split; [exact Hgt|]. split; [|split].
  - intros name. pose proof (fun k => Hgt name k) as Hk.
    unfold group_total in Hk.
    destruct (show_boxes (assign_boxes (map (on_sheet rename) lns)) name) as [b1|],
             (show_boxes (assign_boxes lns) name) as [b2|];
      try (specialize (Hk B1); discriminate); [|reflexivity].
    f_equal. apply boxes_ext. intros k. specialize (Hk k). cbn in Hk. congruence.
  - apply boxes_ext. intros k.
    rewrite !consolidated_box_sum, !group_totals_by_name, Hshow.
    f_equal. apply map_ext. intros name. now rewrite Hgt.
  - unfold assign_boxes; cbn [per_show]. now rewrite !per_show_keys, Hshow.
Qed.

(** C3 (as the code has it): the groups are the shows of the lines, and a
    line's sheet plays no part: putting lines on other sheets changes no
    group, no group total and no consolidated total. For every reordering
    of the lines, the same shows have a group; the lines stored in a group
    are the input lines of its show in input order, so the two results hold
    the same lines in every group, up to their order; every box of a group
    receives the same addends, up to their order; each group total is the
    float sum of its addends from the left in input order, and each
    consolidated total the float sum of the group totals in order of first
    appearance. *)
Theorem reordering_keeps_groups_and_addends (lns lns' : list Line) :
  Permutation lns lns' ->
  (Dict.keys (per_show (assign_boxes lns)) = first_seen (map show lns)
   /\ Permutation (Dict.keys (per_show (assign_boxes lns)))
                  (Dict.keys (per_show (assign_boxes lns'))))
  /\ (forall rename,
        (forall name k,
            group_total (assign_boxes (map (on_sheet rename) lns)) name k
            = group_total (assign_boxes lns) name k)
        /\ (forall name,
              show_boxes (assign_boxes (map (on_sheet rename) lns)) name
              = show_boxes (assign_boxes lns) name)
        /\ consolidated (assign_boxes (map (on_sheet rename) lns))
           = consolidated (assign_boxes lns)
        /\ Dict.keys (per_show (assign_boxes (map (on_sheet rename) lns)))
           = Dict.keys (per_show (assign_boxes lns)))
  /\ (forall name k,
        has_show name lns = has_show name lns'
        /\ Permutation (lines_of name lns) (lines_of name lns')
        /\ Permutation (addends k (lines_of name lns)) (addends k (lines_of name lns'))
        /\ group_total (assign_boxes lns) name k
           = (if has_show name lns
              then Some (fsum (addends k (lines_of name lns))) else None)
        /\ group_total (assign_boxes lns') name k
           = (if has_show name lns'
              then Some (fsum (addends k (lines_of name lns'))) else None))
  /\ (forall name,
        is_some (Dict.get name (per_show (assign_boxes lns)))
        = is_some (Dict.get name (per_show (assign_boxes lns')))
        /\ option_map lines (Dict.get name (per_show (assign_boxes lns)))
           = (if has_show name lns then Some (lines_of name lns) else None)
        /\ option_map lines (Dict.get name (per_show (assign_boxes lns')))
           = (if has_show name lns' then Some (lines_of name lns') else None))
  /\ (forall name acc acc',
        Dict.get name (per_show (assign_boxes lns)) = Some acc ->
        Dict.get name (per_show (assign_boxes lns')) = Some acc' ->
        Permutation (lines acc) (lines acc'))
  /\ (forall k,
        get_box k (consolidated (assign_boxes lns))
        = fsum (group_totals (assign_boxes lns) k)
        /\ get_box k (consolidated (assign_boxes lns'))
           = fsum (group_totals (assign_boxes lns') k)).
Proof.
  intros HP. split; [|split; [|split; [|split; [|split]]]].
  - unfold assign_boxes; cbn [per_show]. rewrite !per_show_keys.
    split; [reflexivity|]. now apply Permutation_first_seen, Permutation_map.
  - intros rename. apply renaming_keeps_totals.
  - intros name k. repeat split.
    + now apply Permutation_existsb.
    + now apply Permutation_filter_pred.
    + now apply Permutation_filter_map, Permutation_filter_pred.
    + apply group_total_is_sum.
    + apply group_total_is_sum.
  - intros name. split; [|split; apply group_lines].
    rewrite !group_present. now apply Permutation_existsb.
  - intros name acc acc' Hacc Hacc'.
    pose proof (group_lines_of lns name) as H. rewrite Hacc in H.
    pose proof (group_lines_of lns' name) as H'. rewrite Hacc' in H'.
    rewrite H, H'. now apply Permutation_filter_pred.
  - intros k. split; apply consolidated_box_sum.
Qed.

Lemma reordering_keeps_groups_and_addends_witness :
  Permutation (addends B1 (lines_of "march" tenths))
              (addends B1 (lines_of "march" tenths_reversed))
  /\ group_total (assign_boxes tenths) "march" B1
     = (if has_show "march" tenths
        then Some (fsum (addends B1 (lines_of "march" tenths))) else None)
  /\ option_map lines (Dict.get "march" (per_show (assign_boxes tenths_reversed)))
     = (if has_show "march" tenths_reversed
        then Some (lines_of "march" tenths_reversed) else None).
Proof.
  destruct (reordering_keeps_groups_and_addends tenths tenths_reversed
              (Permutation_rev tenths)) as (_ & _ & H & Hl & _).
  destruct (H "march" B1) as (_ & _ & Hadd & Htot & _).
  destruct (Hl "march") as (_ & _ & Hlines).
  split; [exact Hadd | split; [exact Htot | exact Hlines]].
Defined.
